(** * comp-data 2024-2025: the hands-on notebooks as a shallow embedding

    The notebooks under [docs/handson] (02: data model classes, 04: relational
    database, 05: graph database) and the exercise solutions (library
    database) are short, linear Python scripts.  Each script is embedded
    below as the function it computes:

    - Python exceptions are values of [exn]; a statement that may raise runs in
      the monad [M S], which threads the mutable state [S] and keeps it when an
      exception is raised (an exception stops the cell, the objects stay);
    - a Python [set] of strings is a [gset string], the rdflib [Graph] a
      [gset triple], a [dict] a [gmap];
    - a pandas [DataFrame] is its column labels and its rows, each row an index
      label and a [Series];
    - [str(i)] on a non-negative integer is stdpp's decimal [pretty]. *)

From stdpp Require Import base gmap sets list strings pretty sorting.

Local Open Scope string_scope.
Local Open Scope list_scope.

#[local] Set Warnings "-clear-no-such-hyp".

(** ** Python exceptions and the state-and-exception monad *)

Module Py.

Inductive exn : Type :=
  | KeyError (key : string)
  | ValueError (msg : string)
  | IntegrityError (msg : string)
  | OperationalError (msg : string)
  | ProgrammingError (msg : string)
  | ConnectionError (msg : string).

Definition result (A : Type) : Type := exn + A.

Definition M (S A : Type) : Type := S → result A * S.

Definition ret {S A} (a : A) : M S A := λ s, (inr a, s).

Definition raise {S A} (e : exn) : M S A := λ s, (inl e, s).

Definition bind {S A B} (m : M S A) (k : A → M S B) : M S B :=
  λ s, match m s with
       | (inr a, s') => k a s'
       | (inl e, s') => (inl e, s')
       end.

Definition get {S} : M S S := λ s, (inr s, s).

Definition put {S} (s : S) : M S unit := λ _, (inr tt, s).

Definition modify {S} (f : S → S) : M S unit := λ s, (inr tt, f s).

Definition lift {S A} (r : result A) : M S A := λ s, (r, s).

(** [for x in xs: body x] *)
Fixpoint for_each {S A} (xs : list A) (body : A → M S unit) : M S unit :=
  match xs with
  | [] => ret tt
  | x :: xs' => bind (body x) (λ _, for_each xs' body)
  end.

End Py.

Notation "x <- m ;; k" := (Py.bind m (λ x, k))
  (at level 100, m at next level, right associativity, only parsing).
Notation "m ;;; k" := (Py.bind m (λ _, k))
  (at level 100, right associativity, only parsing).

(** ** Notebook 02: the class [Venue] *)

Module Classes.

(** [self.id] is a Python set of strings, [self.name] a string. *)
Record Venue : Type := mkVenue { self_id : gset string; self_name : string }.

(** [__init__]: the identifiers are added to an empty set one by one. *)
Definition Venue_init (identifiers : list string) (name : string) : Venue :=
  {| self_id := foldl (λ s identifier, {[identifier]} ∪ s) ∅ identifiers;
     self_name := name |}.

(** [getIds]: the loop appends every element of the set, in the set's
    iteration order, to a fresh list, which is then sorted in place.
    Python compares strings by code point; on byte strings this is
    [String.le]. *)
Definition getIds (self : Venue) : list string * Venue :=
  let result := foldl (λ result identifier, result ++ [identifier]) []
                      (elements (self_id self)) in
  (merge_sort String.le result, self).

Definition getName (self : Venue) : string * Venue := (self_name self, self).

Definition addId (identifier : string) (self : Venue) : bool * Venue :=
  if decide (identifier ∉ self_id self)
  then (true, {| self_id := {[identifier]} ∪ self_id self;
                 self_name := self_name self |})
  else (false, self).

Definition removeId (identifier : string) (self : Venue) : bool * Venue :=
  if decide (identifier ∈ self_id self)
  then (true, {| self_id := self_id self ∖ {[identifier]};
                 self_name := self_name self |})
  else (false, self).

End Classes.

(** ** pandas: the part of the [DataFrame] interface the notebooks use *)

Module Pandas.
Import Py.

(** A cell: a string, an integer, or the missing value. *)
Inductive value : Type :=
  | Str (s : string)
  | Int (z : Z)
  | NaN.

Global Instance value_eq_dec : EqDecision value.
Proof. solve_decision. Defined.

Global Instance value_countable : Countable value.
Proof.
  refine (inj_countable'
    (λ v, match v with
          | Str s => inl s
          | Int z => inr (inl z)
          | NaN => inr (inr ())
          end)
    (λ x, match x with
          | inl s => Str s
          | inr (inl z) => Int z
          | inr (inr _) => NaN
          end) _).
  by intros [].
Defined.

(** [str(v)] *)
Definition str (v : value) : string :=
  match v with
  | Str s => s
  | Int z => pretty z
  | NaN => "nan"
  end.

(** A [Series]: the labels and their values, in label order. *)
Definition Series : Type := list (string * value).

Fixpoint series_lookup (label : string) (row : Series) : option value :=
  match row with
  | [] => None
  | (l, v) :: row' => if decide (l = label) then Some v else series_lookup label row'
  end.

(** [row[label]] *)
Definition getitem (row : Series) (label : string) : result value :=
  match series_lookup label row with
  | Some v => inr v
  | None => inl (KeyError label)
  end.

(** [row[label] = v]: an existing label keeps its place, a new one goes last. *)
Fixpoint series_set (label : string) (v : value) (row : Series) : Series :=
  match row with
  | [] => [(label, v)]
  | (l, w) :: row' =>
      if decide (l = label) then (l, v) :: row'
      else (l, w) :: series_set label v row'
  end.

(** A frame: the column labels and, as [iterrows] yields them, the rows with
    their index labels. *)
Record DataFrame : Type := mkDataFrame {
  columns : list string;
  iterrows : list (nat * Series)
}.

Definition len (df : DataFrame) : nat := length (iterrows df).

(** The index [read_csv] gives a frame: 0, 1, ..., len - 1. *)
Definition RangeIndex (df : DataFrame) : Prop :=
  (iterrows df).*1 = seq 0 (len df).

(** [read_csv]: the header and the parsed cells of the data rows.  With
    [keep_default_na=False] an empty cell stays the empty string, otherwise
    it is the missing value. *)
Definition na_filter (keep_default_na : bool) (v : value) : value :=
  if keep_default_na then (if decide (v = Str "") then NaN else v)
  else (if decide (v = NaN) then Str "" else v).

Definition read_csv (keep_default_na : bool) (header : list string)
    (cells : list (list value)) : DataFrame :=
  {| columns := header;
     iterrows := imap (λ i r, (i, zip header (na_filter keep_default_na <$> r))) cells |}.

(** [df[column] = values] with a list: the values go to the rows in order,
    and the lengths must agree. *)
Definition set_rows (column : string) (rows : list (nat * Series))
    (values : list value) : list (nat * Series) :=
  zip_with (λ '(idx, row) v, (idx, series_set column v row)) rows values.

Definition setitem (column : string) (values : list value) (df : DataFrame)
    : result DataFrame :=
  if decide (length values = len df) then
    inr {| columns := if decide (column ∈ columns df) then columns df
                      else columns df ++ [column];
           iterrows := set_rows column (iterrows df) values |}
  else inl (ValueError "Length of values does not match length of index").

(** [df.insert(loc, column, Series(values))]: the new series carries the index
    0, 1, ... and is aligned on the frame's index labels; a label it does not
    have gives the missing value. *)
Definition insert (loc : nat) (column : string) (values : list value)
    (df : DataFrame) : result DataFrame :=
  if decide (column ∈ columns df) then
    inl (ValueError ("cannot insert " +:+ column +:+ ", already exists"))
  else if decide (length (columns df) < loc) then
    inl (ValueError "index out of bounds")
  else
    inr {| columns := take loc (columns df) ++ column :: drop loc (columns df);
           iterrows := (λ '(idx, row),
                          (idx, take loc row
                                ++ (column, default NaN (values !! idx))
                                :: drop loc row)) <$> iterrows df |}.

(** [df[column]]: the values of a column, row by row ([None] where a row does
    not have the label). *)
Definition column_values (column : string) (df : DataFrame)
    : list (option value) :=
  (λ ir : nat * Series, series_lookup column ir.2) <$> iterrows df.

(** [df[[c1, c2, ...]]]: a label that is not a column raises [KeyError]. *)
Definition select (cols : list string) (df : DataFrame) : result DataFrame :=
  match filter (λ c, c ∉ columns df) cols with
  | c :: _ => inl (KeyError c)
  | [] =>
      inr {| columns := cols;
             iterrows := (λ '(idx, row),
                            (idx, (λ c, (c, default NaN (series_lookup c row)))
                                  <$> cols)) <$> iterrows df |}
  end.

(** [df.rename(columns={old: new})] *)
Definition rename (old new : string) (df : DataFrame) : DataFrame :=
  let f := λ c : string, if decide (c = old) then new else c in
  {| columns := f <$> columns df;
     iterrows := (λ ir : nat * Series, (ir.1, prod_map f id <$> ir.2))
                 <$> iterrows df |}.

(** [df.query("column == 'v'")]: the rows keep their index labels. *)
Definition query_eq (column : string) (v : string) (df : DataFrame) : DataFrame :=
  {| columns := columns df;
     iterrows := filter (λ ir, series_lookup column ir.2 = Some (Str v))
                        (iterrows df) |}.

(** *** Synthetic identifiers *)

(** [[literal + str(i) for i in range(n)]] *)
Definition unique_id (literal : string) (n : nat) : list value :=
  (λ i, Str (literal +:+ pretty i)) <$> seq 0 n.

(** [df['unique_id'] = ['biblio-' + str(i) for i in range(len(df))]] *)
Definition add_unique_id (literal : string) (df : DataFrame) : result DataFrame :=
  setitem "unique_id" (unique_id literal (len df)) df.

(** The loop of notebook 04:
    [for idx, row in df.iterrows(): ids.append(literal + str(idx))] *)
Definition internal_id (literal : string) (df : DataFrame) : list value :=
  foldl (λ ids '(idx, row), ids ++ [Str (literal +:+ pretty idx)]) []
        (iterrows df).

(** [df.insert(0, column, Series(ids, dtype="string"))] *)
Definition insert_internal_id (column literal : string) (df : DataFrame)
    : result DataFrame :=
  insert 0 column (internal_id literal df) df.

(** *** [merge] *)

(** [how]: notebook 04 leaves the default, ['inner']; the library exercise
    passes ['left']. *)
Inductive how : Type := how_inner | how_left.

(** The rows of [right] whose key equals [k], in the order of [right].
    The missing value matches the missing value, as in pandas. *)
Definition matching (right_on : string) (k : option value) (right : DataFrame)
    : list Series :=
  filter (λ r, series_lookup right_on r = k) (iterrows right).*2.

(** The joined rows, in the order of the left keys: a left row is paired with
    each of its matches; without a match it is kept alone by ['left'] and
    dropped by ['inner']. *)
Definition join_row (h : how) (left_on right_on : string) (r : DataFrame)
    (lrow : Series) : list (Series * option Series) :=
  match matching right_on (series_lookup left_on lrow) r with
  | [] => match h with how_left => [(lrow, None)] | how_inner => [] end
  | ms => (λ rrow, (lrow, Some rrow)) <$> ms
  end.

Definition merge_rows (h : how) (left_on right_on : string)
    (l r : DataFrame) : list (Series * option Series) :=
  (iterrows l).*2 ≫= join_row h left_on right_on r.

(** Column labels of the result: a label on both sides takes the suffixes
    [_x] and [_y], unless it is the join key on both sides, which is kept
    once. *)
Definition shared_key (left_on right_on c : string) : bool :=
  bool_decide (c = left_on) && bool_decide (c = right_on).

Definition overlapping (left_on right_on : string) (l r : DataFrame)
    (c : string) : bool :=
  bool_decide (c ∈ columns l) && bool_decide (c ∈ columns r)
  && negb (shared_key left_on right_on c).

Definition suffixed (left_on right_on : string) (l r : DataFrame)
    (suffix c : string) : string :=
  if overlapping left_on right_on l r c then c +:+ suffix else c.

Definition right_columns (left_on right_on : string) (r : DataFrame)
    : list string :=
  filter (λ c, shared_key left_on right_on c = false) (columns r).

Definition joined_series (left_on right_on : string) (l r : DataFrame)
    (p : Series * option Series) : Series :=
  (prod_map (suffixed left_on right_on l r "_x") id <$> p.1)
  ++ ((λ c, (suffixed left_on right_on l r "_y" c,
             default NaN (p.2 ≫= series_lookup c)))
      <$> right_columns left_on right_on r).

(** [merge(l, r, left_on=..., right_on=..., how=...)]: a key that is not a
    column raises [KeyError]; no [validate] argument is passed, so the
    uniqueness of the keys is not checked. *)
Definition merge (l r : DataFrame) (left_on right_on : string) (h : how)
    : result DataFrame :=
  if decide (left_on ∉ columns l) then inl (KeyError left_on)
  else if decide (right_on ∉ columns r) then inl (KeyError right_on)
  else
    inr {| columns := (suffixed left_on right_on l r "_x" <$> columns l)
                      ++ (suffixed left_on right_on l r "_y"
                          <$> right_columns left_on right_on r);
           iterrows := imap (λ i p, (i, joined_series left_on right_on l r p))
                            (merge_rows h left_on right_on l r) |}.

End Pandas.

(** ** sqlite3: connections, tables and the statements the notebooks run *)

Module Sqlite.
Import Py Pandas.

Inductive sqlval : Type :=
  | TEXT (s : string)
  | INTEGER (z : Z)
  | NULL.

Global Instance sqlval_eq_dec : EqDecision sqlval.
Proof. solve_decision. Defined.

(** Binding a Python value to a [?]: a missing value (a float nan) is bound
    as NULL. *)
Definition bind_param (v : value) : sqlval :=
  match v with
  | Str s => TEXT s
  | Int z => INTEGER z
  | NaN => NULL
  end.

(** Every column the notebooks declare is [TEXT]: a number stored in it is
    converted to its text. *)
Definition text_affinity (v : sqlval) : sqlval :=
  match v with
  | INTEGER z => TEXT (pretty z)
  | _ => v
  end.

Record column : Type := mkColumn {
  col_name : string;
  primary_key : bool;
  not_null : bool
}.

(** A table: its columns and its rows in rowid order, which is the order of
    insertion and the order of a [SELECT] without [ORDER BY]. *)
Record table : Type := mkTable {
  tcolumns : list column;
  trows : list (list sqlval)
}.

Record connection : Type := mkConnection {
  is_open : bool;
  in_transaction : bool;
  view : gmap string table
}.

(** The database file on disk and the connection object of the script. *)
Record env : Type := mkEnv {
  db_file : gmap string table;
  con : connection
}.

(** [if os.path.exists(f): os.remove(f)] *)
Definition os_remove : M env unit :=
  modify (λ e, {| db_file := ∅; con := con e |}).

(** [connection = sqlite3.connect(f)] *)
Definition connect : M env unit :=
  modify (λ e, {| db_file := db_file e;
                  con := {| is_open := true; in_transaction := false;
                            view := db_file e |} |}).

Definition closed_error {A} : M env A :=
  raise (ProgrammingError "Cannot operate on a closed database.").

(** [CREATE TABLE name (...)]: outside a transaction the statement is
    written to the file at once. *)
Definition execute_create_table (name : string) (cols : list column)
    : M env unit :=
  e <- get ;;
  if negb (is_open (con e)) then closed_error
  else if decide (is_Some (view (con e) !! name)) then
    raise (OperationalError ("table " +:+ name +:+ " already exists"))
  else
    let v := <[name := {| tcolumns := cols; trows := [] |}]> (view (con e)) in
    put {| db_file := if in_transaction (con e) then db_file e else v;
           con := {| is_open := true;
                     in_transaction := in_transaction (con e);
                     view := v |} |}.

(** The position of a column, and the field of a row under a column name. *)
Fixpoint position (name : string) (cols : list column) : option nat :=
  match cols with
  | [] => None
  | c :: cols' => if decide (col_name c = name) then Some 0
                  else S <$> position name cols'
  end.

Definition field (t : table) (name : string) (row : list sqlval) : sqlval :=
  default NULL (position name (tcolumns t) ≫= λ i, row !! i).

(** The first constraint a new row breaks, if any.  A [TEXT PRIMARY KEY]
    column accepts NULL, and NULLs never collide. *)
Fixpoint violation (tname : string) (t : table) (cols : list column)
    (row : list sqlval) : option string :=
  match cols, row with
  | c :: cols', v :: row' =>
      if not_null c && bool_decide (v = NULL) then
        Some ("NOT NULL constraint failed: " +:+ tname +:+ "." +:+ col_name c)
      else if primary_key c && bool_decide (v ≠ NULL)
              && bool_decide (v ∈ field t (col_name c) <$> trows t) then
        Some ("UNIQUE constraint failed: " +:+ tname +:+ "." +:+ col_name c)
      else violation tname t cols' row'
  | _, _ => None
  end.

Fixpoint assoc (name : string) (l : list (string * sqlval)) : option sqlval :=
  match l with
  | [] => None
  | (n, v) :: l' => if decide (n = name) then Some v else assoc name l'
  end.

(** [INSERT INTO name (cols) VALUES (?, ...)] with its parameters.  The
    statement opens a transaction if none is open; foreign keys are declared
    but not enforced (SQLite's default). *)
Definition execute_insert (name : string) (cols : list string)
    (params : list value) : M env unit :=
  e <- get ;;
  if negb (is_open (con e)) then closed_error
  else
    match view (con e) !! name with
    | None => raise (OperationalError ("no such table: " +:+ name))
    | Some t =>
        let row := (λ c, text_affinity
                           (default NULL
                              (assoc (col_name c) (zip cols (bind_param <$> params)))))
                   <$> tcolumns t in
        match violation name t (tcolumns t) row with
        | Some msg =>
            put {| db_file := db_file e;
                   con := {| is_open := true; in_transaction := true;
                             view := view (con e) |} |} ;;;
            raise (IntegrityError msg)
        | None =>
            put {| db_file := db_file e;
                   con := {| is_open := true; in_transaction := true;
                             view := <[name := {| tcolumns := tcolumns t;
                                                  trows := trows t ++ [row] |}]>
                                       (view (con e)) |} |}
        end
    end.

(** [connection.commit()] *)
Definition commit : M env unit :=
  e <- get ;;
  if negb (is_open (con e)) then closed_error
  else put {| db_file := view (con e);
              con := {| is_open := true; in_transaction := false;
                        view := view (con e) |} |}.

(** [connection.close()]: what was not committed is lost. *)
Definition close : M env unit :=
  modify (λ e, {| db_file := db_file e;
                  con := {| is_open := false; in_transaction := false;
                            view := db_file e |} |}).

(** [cursor.execute("SELECT * FROM name LIMIT n"); cursor.fetchall()] *)
Definition select_all_limit (name : string) (n : nat)
    : M env (list (list sqlval)) :=
  e <- get ;;
  if negb (is_open (con e)) then closed_error
  else
    match view (con e) !! name with
    | None => raise (OperationalError ("no such table: " +:+ name))
    | Some t => ret (take n (trows t))
    end.

End Sqlite.

(** ** The library exercise: Publisher and BibliographicResource *)

Module Library.
Import Py Pandas Sqlite.

Definition Publisher_columns : list column :=
  [ mkColumn "id" true false;
    mkColumn "name" false true;
    mkColumn "unique_id" false true ].

Definition BibliographicResource_columns : list column :=
  [ mkColumn "id" true false;
    mkColumn "title" false true;
    mkColumn "type" false false;
    mkColumn "publisher" false false;
    mkColumn "unique_id" false true ].

(** Step 4: one [INSERT] per row of [publishers_df]. *)
Definition insert_publisher (ir : nat * Series) : M env unit :=
  let row := ir.2 in
  id_ <- lift (getitem row "id") ;;
  name_ <- lift (getitem row "name") ;;
  unique_id_ <- lift (getitem row "unique_id") ;;
  execute_insert "Publisher" ["id"; "name"; "unique_id"]
                 [id_; name_; unique_id_].

(** Step 5: one [INSERT] per row of [bibliographic_df]. *)
Definition insert_resource (ir : nat * Series) : M env unit :=
  let row := ir.2 in
  id_ <- lift (getitem row "id") ;;
  title_ <- lift (getitem row "title") ;;
  type_ <- lift (getitem row "type") ;;
  publisher_ <- lift (getitem row "publisher") ;;
  unique_id_ <- lift (getitem row "unique_id") ;;
  execute_insert "BibliographicResource"
                 ["id"; "title"; "type"; "publisher"; "unique_id"]
                 [id_; title_; type_; publisher_; unique_id_].

(** Exercise 3, the whole cell: the batch of writes between [connect] and
    [close].  Nothing catches an exception: the first statement that raises
    ends the cell. *)
Definition create_database (publishers_df bibliographic_df : DataFrame)
    : M env unit :=
  os_remove ;;;
  connect ;;;
  execute_create_table "Publisher" Publisher_columns ;;;
  execute_create_table "BibliographicResource" BibliographicResource_columns ;;;
  for_each (iterrows publishers_df) insert_publisher ;;;
  for_each (iterrows bibliographic_df) insert_resource ;;;
  commit ;;;
  close.


(** What an [INSERT] stores for a row: its cells under the given labels, as
    SQL values in a [TEXT] column. *)
Definition stored (cols : list string) (row : Series) : list sqlval :=
  (λ c, text_affinity (bind_param (default NaN (series_lookup c row)))) <$> cols.

(** The database file once the two tables are created and before any row is
    committed. *)
Definition empty_tables : gmap string table :=
  <["BibliographicResource" :=
      {| tcolumns := BibliographicResource_columns; trows := [] |}]>
    (<["Publisher" := {| tcolumns := Publisher_columns; trows := [] |}]> ∅).

(** The database file once the rows of the two frames are committed. *)
Definition filled_tables (publishers_df bibliographic_df : DataFrame)
    : gmap string table :=
  <["BibliographicResource" :=
      {| tcolumns := BibliographicResource_columns;
         trows := stored ["id"; "title"; "type"; "publisher"; "unique_id"]
                  <$> (iterrows bibliographic_df).*2 |}]>
    (<["Publisher" :=
         {| tcolumns := Publisher_columns;
            trows := stored ["id"; "name"; "unique_id"]
                     <$> (iterrows publishers_df).*2 |}]> ∅).

(** Exercises 1 and 2 on the two frames read from the CSV files. *)
Definition exercise_1 (bibliographic_df publishers_df : DataFrame)
    : result (DataFrame * DataFrame) :=
  match add_unique_id "biblio-" bibliographic_df,
        add_unique_id "publisher-" publishers_df with
  | inr b, inr p => inr (b, p)
  | inl e, _ | _, inl e => inl e
  end.

Definition exercise_2 (bibliographic_df publishers_df : DataFrame)
    : result DataFrame :=
  merge bibliographic_df publishers_df "publisher" "id" how_left.

End Library.

(** ** Notebook 04: the five tables of [publications.db] *)

Module Relational.
Import Py Pandas Sqlite.

Definition and_then {A B} (r : result A) (k : A → result B) : result B :=
  match r with
  | inr a => k a
  | inl e => inl e
  end.

(** [venues_ids]: the column [id] and, first, the new column [venueId]. *)
Definition venues_ids (venues : DataFrame) : result DataFrame :=
  and_then (select ["id"] venues) (insert_internal_id "venueId" "venue-").

(** [journals] and [books]: the rows of one type, joined with [venues_ids]
    on [id]; [merge] is called without [how]. *)
Definition venue_table (type : string) (venues ids : DataFrame)
    : result DataFrame :=
  and_then (merge (query_eq "type" type venues) ids "id" "id" how_inner) (λ df_joined,
  and_then (select ["venueId"; "name"] df_joined) (λ t,
  inr (rename "venueId" "internalId" t))).

Definition with_internal_id (publications : DataFrame) : result DataFrame :=
  insert_internal_id "internalId" "publication-" publications.

Definition publication_table (type : string) (cols : list string)
    (publications ids : DataFrame) : result DataFrame :=
  and_then (merge (query_eq "type" type publications) ids
                  "publication venue" "id" how_inner) (λ df_joined,
  and_then (select cols df_joined) (λ t,
  inr (rename "venueId" "publicationVenue"
         (rename "publication year" "publicationYear" t)))).

Definition journal_articles : DataFrame → DataFrame → result DataFrame :=
  publication_table "journal article"
    ["internalId"; "doi"; "publication year"; "title"; "issue"; "volume";
     "venueId"].

Definition book_chapters : DataFrame → DataFrame → result DataFrame :=
  publication_table "book chapter"
    ["internalId"; "doi"; "publication year"; "title"; "venueId"].

(** [df.to_sql(name, con, if_exists="replace", index=False)]: the table is
    replaced by the frame, cell for cell, and the change is committed. *)
Definition to_sql (name : string) (df : DataFrame) : M env unit :=
  e <- get ;;
  if negb (is_open (con e)) then closed_error
  else
    let t := {| tcolumns := (λ c, mkColumn c false false) <$> columns df;
                trows := (λ ir : nat * Series,
                            (λ c, bind_param (default NaN (series_lookup c ir.2)))
                            <$> columns df) <$> iterrows df |} in
    let v := <[name := t]> (view (con e)) in
    put {| db_file := v;
           con := {| is_open := true; in_transaction := false; view := v |} |}.

(** [with connect(f) as con: body].  Leaving the block commits, or rolls back
    when the body raised; sqlite3's context manager does not close the
    connection. *)
Definition with_connect (body : M env unit) : M env unit :=
  connect ;;;
  λ e, match body e with
       | (inr _, e') => commit e'
       | (inl x, e') =>
           (inl x, {| db_file := db_file e';
                      con := {| is_open := is_open (con e');
                                in_transaction := false;
                                view := db_file e' |} |})
       end.

(** The last cell: the five tables are written. *)
Definition populate (ids journals books articles chapters : DataFrame)
    : M env unit :=
  with_connect (
    to_sql "VenueId" ids ;;;
    to_sql "Journal" journals ;;;
    to_sql "Book" books ;;;
    to_sql "JournalArticle" articles ;;;
    to_sql "BookChapter" chapters).

(** The notebook from the two frames to the database: the five tables are
    built, then written. *)
Definition build_tables (venues publications : DataFrame)
    : result (DataFrame * DataFrame * DataFrame * DataFrame * DataFrame) :=
  and_then (venues_ids venues) (λ ids,
  and_then (venue_table "journal" venues ids) (λ journals,
  and_then (venue_table "book" venues ids) (λ books,
  and_then (with_internal_id publications) (λ publications',
  and_then (journal_articles publications' ids) (λ articles,
  and_then (book_chapters publications' ids) (λ chapters,
  inr (ids, journals, books, articles, chapters))))))).

Definition notebook (venues publications : DataFrame) : M env unit :=
  match build_tables venues publications with
  | inr (ids, journals, books, articles, chapters) =>
      populate ids journals books articles chapters
  | inl x => raise x
  end.

End Relational.

(** ** Notebook 05: the RDF graph and the triplestore *)

Module Rdflib.
Import Py Pandas.

(** A term is a resource or a literal; a literal made from a Python string
    has no datatype. *)
Inductive term : Type :=
  | URIRef (iri : string)
  | Literal (lexical : string) (datatype : option string).

Global Instance term_eq_dec : EqDecision term.
Proof. solve_decision. Defined.

Global Instance term_countable : Countable term.
Proof.
  refine (inj_countable'
    (λ t, match t with
          | URIRef i => inl i
          | Literal l d => inr (l, d)
          end)
    (λ x, match x with
          | inl i => URIRef i
          | inr (l, d) => Literal l d
          end) _).
  by intros [].
Defined.

Definition triple : Type := term * term * term.

(** [Literal(v)] on a cell. *)
Definition Literal_of (v : value) : term :=
  match v with
  | Str s => Literal s None
  | Int z => Literal (pretty z) (Some "http://www.w3.org/2001/XMLSchema#integer")
  | NaN => Literal "nan" (Some "http://www.w3.org/2001/XMLSchema#double")
  end.

(** [RDF.type] *)
Definition RDF_type : term :=
  URIRef "http://www.w3.org/1999/02/22-rdf-syntax-ns#type".

(** classes of resources *)
Definition JournalArticle : term := URIRef "https://schema.org/ScholarlyArticle".
Definition BookChapter : term := URIRef "https://schema.org/Chapter".
Definition Journal : term := URIRef "https://schema.org/Periodical".
Definition Book : term := URIRef "https://schema.org/Book".

(** attributes related to classes *)
Definition doi : term := URIRef "https://schema.org/identifier".
Definition publicationYear : term := URIRef "https://schema.org/datePublished".
Definition title : term := URIRef "https://schema.org/name".
Definition issue : term := URIRef "https://schema.org/issueNumber".
Definition volume : term := URIRef "https://schema.org/volumeNumber".
Definition identifier : term := URIRef "https://schema.org/identifier".
Definition name : term := URIRef "https://schema.org/name".

(** relations among classes *)
Definition publicationVenue : term := URIRef "https://schema.org/isPartOf".

(** The script's two mutable objects: the graph, a set of statements, and
    the dictionary from a venue's [id] to its resource. *)
Record state : Type := mkState {
  my_graph : gset triple;
  venue_internal_id : gmap value term
}.

Definition initial : state := {| my_graph := ∅; venue_internal_id := ∅ |}.

(** [my_graph.add((s, p, o))] *)
Definition add (t : triple) : M state unit :=
  modify (λ st, {| my_graph := {[t]} ∪ my_graph st;
                   venue_internal_id := venue_internal_id st |}).

(** The resource of a row: [URIRef(base_url + prefix + str(idx))]. *)
Definition resource (base_url prefix : string) (idx : nat) : term :=
  URIRef (base_url +:+ (prefix +:+ pretty idx)).

(** The body of the loop over [venues.iterrows()]. *)
Definition add_venue (base_url : string) (ir : nat * Series) : M state unit :=
  let '(idx, row) := ir in
  let subj := resource base_url "venue-" idx in
  id_ <- lift (getitem row "id") ;;
  modify (λ st, {| my_graph := my_graph st;
                   venue_internal_id := <[id_ := subj]> (venue_internal_id st) |}) ;;;
  type_ <- lift (getitem row "type") ;;
  (if decide (type_ = Str "journal") then add (subj, RDF_type, Journal)
   else add (subj, RDF_type, Book)) ;;;
  name_ <- lift (getitem row "name") ;;
  add (subj, name, Literal_of name_) ;;;
  id2 <- lift (getitem row "id") ;;
  add (subj, identifier, Literal_of id2).

(** The body of the loop over [publications.iterrows()]. *)
Definition add_publication (base_url : string) (ir : nat * Series)
    : M state unit :=
  let '(idx, row) := ir in
  let subj := resource base_url "publication-" idx in
  type_ <- lift (getitem row "type") ;;
  (if decide (type_ = Str "journal article") then
     add (subj, RDF_type, JournalArticle) ;;;
     issue_ <- lift (getitem row "issue") ;;
     add (subj, issue, Literal_of issue_) ;;;
     volume_ <- lift (getitem row "volume") ;;
     add (subj, volume, Literal_of volume_)
   else add (subj, RDF_type, BookChapter)) ;;;
  title_ <- lift (getitem row "title") ;;
  add (subj, name, Literal_of title_) ;;;
  doi_ <- lift (getitem row "doi") ;;
  add (subj, identifier, Literal_of doi_) ;;;
  year_ <- lift (getitem row "publication year") ;;
  add (subj, publicationYear, Literal (str year_) None) ;;;
  venue_ <- lift (getitem row "publication venue") ;;
  st <- get ;;
  match venue_internal_id st !! venue_ with
  | Some v => add (subj, publicationVenue, v)
  | None => raise (KeyError (str venue_))
  end.

(** The two loops, on the frames read with [keep_default_na=False]. *)
Definition build_graph (base_url : string) (venues publications : DataFrame)
    : M state unit :=
  for_each (iterrows venues) (add_venue base_url) ;;;
  for_each (iterrows publications) (add_publication base_url).

Definition base_url : string := "https://comp-data.github.io/res/".

(** *** What the two loops add, row by row *)

(** The statements of a venue row ([None] when the row lacks a label). *)
Definition venue_statements (base_url : string) (ir : nat * Series)
    : option (gset triple) :=
  let subj := resource base_url "venue-" ir.1 in
  id_ ← series_lookup "id" ir.2;
  type_ ← series_lookup "type" ir.2;
  name_ ← series_lookup "name" ir.2;
  Some ({[ (subj, RDF_type,
            if decide (type_ = Str "journal") then Journal else Book);
           (subj, name, Literal_of name_);
           (subj, identifier, Literal_of id_) ]} : gset triple).

(** The entry of the dictionary for a venue row, and the dictionary after
    the loop over the venues: a later row with the same [id] replaces an
    earlier one. *)
Definition venue_entry (base_url : string) (ir : nat * Series)
    : option (value * term) :=
  id_ ← series_lookup "id" ir.2;
  Some (id_, resource base_url "venue-" ir.1).

Definition venue_index (base_url : string) (rows : list (nat * Series))
    (d : gmap value term) : gmap value term :=
  foldl (λ d ir, match venue_entry base_url ir with
                 | Some (k, v) => <[k := v]> d
                 | None => d
                 end) d rows.

(** The statements of a publication row, given the dictionary of venues
    ([None] when the row lacks a label or its venue is not in the
    dictionary). *)
Definition publication_statements (base_url : string) (d : gmap value term)
    (ir : nat * Series) : option (gset triple) :=
  let subj := resource base_url "publication-" ir.1 in
  type_ ← series_lookup "type" ir.2;
  own ← (if decide (type_ = Str "journal article") then
           issue_ ← series_lookup "issue" ir.2;
           volume_ ← series_lookup "volume" ir.2;
           Some ({[ (subj, RDF_type, JournalArticle);
                    (subj, issue, Literal_of issue_);
                    (subj, volume, Literal_of volume_) ]} : gset triple)
         else Some ({[ (subj, RDF_type, BookChapter) ]} : gset triple));
  title_ ← series_lookup "title" ir.2;
  doi_ ← series_lookup "doi" ir.2;
  year_ ← series_lookup "publication year" ir.2;
  venue_ ← series_lookup "publication venue" ir.2;
  v ← d !! venue_;
  Some (own ∪ {[ (subj, name, Literal_of title_);
                 (subj, identifier, Literal_of doi_);
                 (subj, publicationYear, Literal (str year_) None);
                 (subj, publicationVenue, v) ]}).

(** The attributes the loops turn into statements: three for a venue; five
    for a publication, and its issue and volume when its type is
    "journal article". *)
Definition venue_labels : list string := ["id"; "type"; "name"].

Definition publication_labels (row : Series) : list string :=
  ["type"; "title"; "doi"; "publication year"; "publication venue"]
  ++ (if decide (series_lookup "type" row = Some (Str "journal article"))
      then ["issue"; "volume"] else []).

(** A cell that holds a value: neither missing nor the empty string. *)
Definition filled (row : Series) (label : string) : bool :=
  match series_lookup label row with
  | Some (Str s) => if decide (s = "") then false else true
  | Some (Int _) => true
  | Some NaN | None => false
  end.

(** The union of the statements of all rows ([None] when a row has none). *)
Definition union_all (f : nat * Series → option (gset triple))
    (rows : list (nat * Series)) : option (gset triple) :=
  foldr (λ ir acc, stmts ← f ir; rest ← acc; Some (stmts ∪ rest)) (Some ∅) rows.

(** The proxy of the triplestore: whether it is open, and the statements the
    endpoint holds. *)
Record SPARQLUpdateStore : Type := mkStore {
  store_is_open : bool;
  statements : gset triple
}.

(** [store.open((endpoint, endpoint))] *)
Definition store_open : M SPARQLUpdateStore unit :=
  modify (λ s, {| store_is_open := true; statements := statements s |}).

(** [store.add(triple)]: one update request; [endpoint t] tells whether the
    endpoint answers the request for [t]. *)
Definition store_add (endpoint : triple → bool) (t : triple)
    : M SPARQLUpdateStore unit :=
  s <- get ;;
  if negb (store_is_open s) then raise (ProgrammingError "store is not open")
  else if endpoint t then
    put {| store_is_open := true; statements := {[t]} ∪ statements s |}
  else raise (ConnectionError "endpoint unreachable").

(** [store.close()] *)
Definition store_close : M SPARQLUpdateStore unit :=
  modify (λ s, {| store_is_open := false; statements := statements s |}).

(** The last cell: every statement of the graph is sent, one by one, in the
    order [my_graph.triples((None, None, None))] yields them. *)
Definition upload (endpoint : triple → bool) (g : gset triple)
    : M SPARQLUpdateStore unit :=
  store_open ;;;
  for_each (elements g) (store_add endpoint) ;;;
  store_close.

End Rdflib.

(** ** Sample inputs *)

Module Samples.
Import Pandas.

(** One resource whose publisher id is carried by two publisher rows. *)
Definition one_resource : DataFrame :=
  read_csv true ["id"; "title"; "type"; "publisher"]
    [[Str "doi:10.1/a"; Str "A dataset"; Str "dataset"; Str "crossref:15"]].

Definition two_publishers_same_id : DataFrame :=
  read_csv true ["id"; "name"]
    [[Str "crossref:15"; Str "Press A"];
     [Str "crossref:15"; Str "Press B"]].

(** Three resources, the second without a publisher, the third with a
    publisher that is not in the publisher file. *)
Definition three_resources : DataFrame :=
  read_csv true ["id"; "title"; "type"; "publisher"]
    [[Str "doi:10.1/a"; Str "A dataset"; Str "dataset"; Str "crossref:15"];
     [Str "doi:10.1/b"; Str "A book"; Str ""; Str ""];
     [Str "doi:10.1/c"; Str "A report"; Str "report"; Str "crossref:99"]].

Definition two_publishers : DataFrame :=
  read_csv true ["id"; "name"]
    [[Str "crossref:15"; Str "Press A"];
     [Str "crossref:16"; Str "Press B"]].

(** The venues and the publications of the notebooks (titles shortened). *)
Definition venues : DataFrame :=
  read_csv false ["id"; "name"; "type"]
    [[Str "1531-6912"; Str "Comparative and Functional Genomics"; Str "journal"];
     [Str "1367-5931"; Str "Current Opinion in Chemical Biology"; Str "journal"];
     [Str "9780470291092"; Str "Proceedings of the 5th Annual Conference";
      Str "book"];
     [Str "1027-3662"; Str "Journal of Theoretical Medicine"; Str "journal"]].

Definition publications_header : list string :=
  ["doi"; "title"; "publication year"; "publication venue"; "type"; "issue";
   "volume"].

Definition publications : DataFrame :=
  read_csv false publications_header
    [[Str "10.1002/cfg.304"; Str "Development of Computational Tools";
      Int 2003; Str "1531-6912"; Str "journal article"; Str "4"; Str "4"];
     [Str "10.1016/s1367-5931(02)00332-0"; Str "In vitro selection";
      Int 2002; Str "1367-5931"; Str "journal article"; Str "3"; Str "6"];
     [Str "10.1002/9780470291092.ch20"; Str "Mechanisms of Toughening";
      Int 1981; Str "9780470291092"; Str "book chapter"; Str ""; Str ""]].

(** Three venues: as many rows as [three_resources], other cells. *)
Definition venues_3 : DataFrame :=
  read_csv false ["id"; "name"; "type"]
    [[Str "1531-6912"; Str "Comparative and Functional Genomics"; Str "journal"];
     [Str "1367-5931"; Str "Current Opinion in Chemical Biology"; Str "journal"];
     [Str "1027-3662"; Str "Journal of Theoretical Medicine"; Str "journal"]].

(** One venue, a book. *)
Definition one_book : DataFrame :=
  read_csv false ["id"; "name"; "type"]
    [[Str "9780470291092"; Str "Proceedings of the 5th Annual Conference";
      Str "book"]].

(** One venue, a journal. *)
Definition one_journal : DataFrame :=
  read_csv false ["id"; "name"; "type"]
    [[Str "1531-6912"; Str "Comparative and Functional Genomics"; Str "journal"]].

(** A book chapter whose issue and volume cells are filled. *)
Definition chapter_with_issue : DataFrame :=
  read_csv false publications_header
    [[Str "10.1002/9780470291092.ch20"; Str "Mechanisms of Toughening";
      Int 1981; Str "9780470291092"; Str "book chapter"; Str "7"; Str "2"]].

(** A journal article whose issue cell is empty. *)
Definition article_without_issue : DataFrame :=
  read_csv false publications_header
    [[Str "10.1002/cfg.304"; Str "Development of Computational Tools";
      Int 2003; Str "1531-6912"; Str "journal article"; Str ""; Str "4"]].


(** A frame after exercise 1 (the frame itself if the assignment raised). *)
Definition with_unique_id (literal : string) (df : DataFrame) : DataFrame :=
  match add_unique_id literal df with
  | inr df' => df'
  | inl _ => df
  end.

(** A graph of one statement. *)
Definition one_statement : gset Rdflib.triple :=
  {[ (Rdflib.resource Rdflib.base_url "venue-" 0, Rdflib.name,
      Rdflib.Literal "Comparative and Functional Genomics" None) ]}.

(** Some state of the disk and of the connection object before the cell
    runs. *)
Definition before : Sqlite.env :=
  {| Sqlite.db_file := ∅;
     Sqlite.con := {| Sqlite.is_open := false; Sqlite.in_transaction := false;
                      Sqlite.view := ∅ |} |}.

End Samples.

(** ** The library exercise: the joined read-back *)

Module Verification.
Import Py Pandas Sqlite Library.

(** [a = b] in a [WHERE] or [ON] clause: never true on NULL.  The stored
    values of a [TEXT] column are texts or NULL, and two texts are equal when
    they are the same string. *)
Definition sql_eq (a b : sqlval) : bool :=
  bool_decide (a ≠ NULL ∧ a = b).

(** [SELECT b.id, b.title, b.type, p.name FROM BibliographicResource b
    LEFT JOIN Publisher p ON b.publisher = p.id]: the resources in rowid
    order, each with the publishers that match, or once with NULL. *)
Definition left_join (b p : table) : list (list sqlval) :=
  r ← trows b;
  let out := λ n, [field b "id" r; field b "title" r; field b "type" r; n] in
  match filter (λ q, sql_eq (field b "publisher" r) (field p "id" q) = true)
               (trows p) with
  | [] => [out NULL]
  | matches => (λ q, out (field p "name" q)) <$> matches
  end.

Definition select_joined (n : nat) : M env (list (list sqlval)) :=
  e <- get ;;
  if negb (is_open (con e)) then closed_error
  else
    match view (con e) !! "BibliographicResource", view (con e) !! "Publisher" with
    | None, _ => raise (OperationalError "no such table: BibliographicResource")
    | _, None => raise (OperationalError "no such table: Publisher")
    | Some b, Some p => ret (take n (left_join b p))
    end.

(** The whole verification cell: the two read-back queries and the joined
    one, each [LIMIT 5]. *)
Definition verification_cell
    : M env (list (list sqlval) * list (list sqlval) * list (list sqlval)) :=
  connect ;;;
  publishers <- select_all_limit "Publisher" 5 ;;
  resources <- select_all_limit "BibliographicResource" 5 ;;
  joined <- select_joined 5 ;;
  close ;;;
  ret (publishers, resources, joined).

End Verification.

(** ** More sample inputs *)

Module Tables.
Import Pandas Relational.

(** [venues_ids] of a frame of venues, and a frame of publications with its
    column [internalId]. *)
Definition ids (venues : DataFrame) : DataFrame :=
  match venues_ids venues with
  | inr df => df
  | inl _ => venues
  end.

Definition numbered (publications : DataFrame) : DataFrame :=
  match with_internal_id publications with
  | inr df => df
  | inl _ => publications
  end.

(** Two venue rows that carry the same id. *)
Definition same_id_venues : DataFrame :=
  read_csv false ["id"; "name"; "type"]
    [[Str "1531-6912"; Str "Comparative and Functional Genomics"; Str "journal"];
     [Str "1531-6912"; Str "International Journal of Genomics"; Str "journal"]].

End Tables.

(** * Properties *)

Section venue_methods.
Import Classes.

Lemma append_loop_spec (l acc : list string) :
  foldl (λ result identifier, result ++ [identifier]) acc l = acc ++ l.
Proof.
  revert acc. induction l as [|x l IH]; intros acc; simpl.
  - by rewrite app_nil_r.
  - rewrite IH. by rewrite <- app_assoc.
Qed.

Lemma getIds_perm (v : Venue) : (getIds v).1 ≡ₚ elements (self_id v).
Proof.
  unfold getIds; simpl. rewrite merge_sort_Permutation.
  by rewrite append_loop_spec.
Qed.

(** C9. [addId] returns [True] exactly when the identifier was not in the
    set and [removeId] exactly when it was; in both the result is [True]
    exactly when the set changed; the identifier is in the set after
    [addId] and out of it after [removeId]. *)
Theorem addId_removeId_spec (v : Venue) (s : string) :
  ((addId s v).1 = true ↔ s ∉ self_id v) ∧
  ((removeId s v).1 = true ↔ s ∈ self_id v) ∧
  ((addId s v).1 = true ↔ self_id (addId s v).2 ≠ self_id v) ∧
  ((removeId s v).1 = true ↔ self_id (removeId s v).2 ≠ self_id v) ∧
  s ∈ self_id (addId s v).2 ∧
  s ∉ self_id (removeId s v).2.
Proof.
  unfold addId, removeId.
  destruct (decide (s ∉ self_id v)) as [Hn|Hn];
    destruct (decide (s ∈ self_id v)) as [Hi|Hi]; simpl.
  - done.
  - split_and!; try done; try set_solver.
  - split_and!; try done; try set_solver.
  - exfalso. by apply Hi, dec_stable.
Qed.

(** C10. [getIds] returns the elements of the identifier set, each once,
    in ascending order, and leaves the venue as it was. *)
Theorem getIds_spec (v : Venue) :
  StronglySorted String.le (getIds v).1 ∧
  NoDup (getIds v).1 ∧
  (∀ s, s ∈ (getIds v).1 ↔ s ∈ self_id v) ∧
  (getIds v).2 = v.
Proof.
  split; [|split; [|split]].
  - unfold getIds; simpl. apply StronglySorted_merge_sort; apply _.
  - rewrite getIds_perm. apply NoDup_elements.
  - intros s. rewrite getIds_perm. apply elem_of_elements.
  - done.
Qed.

End venue_methods.

(** ** Synthetic identifiers *)

Section identifiers.
Import Py Pandas.

Lemma string_app_assoc (a b c : string) : (a +:+ b) +:+ c = a +:+ (b +:+ c).
Proof.
  induction a as [|x a IH]; [done|].
  change (String x ((a +:+ b) +:+ c) = String x (a +:+ (b +:+ c))).
  by rewrite IH.
Qed.

Lemma series_lookup_set_eq (c : string) (v : value) (row : Series) :
  series_lookup c (series_set c v row) = Some v.
Proof.
  induction row as [|[l w] row IH]; simpl.
  - by rewrite decide_True.
  - destruct (decide (l = c)) as [->|Hne]; simpl.
    + by rewrite decide_True.
    + by rewrite decide_False.
Qed.

Lemma series_lookup_set_ne (c c' : string) (v : value) (row : Series) :
  c' ≠ c → series_lookup c' (series_set c v row) = series_lookup c' row.
Proof.
  intros Hne. induction row as [|[l w] row IH]; simpl.
  - by rewrite decide_False.
  - destruct (decide (l = c)) as [->|Hlc]; simpl.
    + by rewrite !decide_False.
    + by rewrite IH.
Qed.

Lemma series_set_idemp (c : string) (v : value) (row : Series) :
  series_set c v (series_set c v row) = series_set c v row.
Proof.
  induction row as [|[l w] row IH]; simpl.
  - by rewrite decide_True.
  - destruct (decide (l = c)) as [->|Hlc]; simpl.
    + by rewrite decide_True.
    + rewrite decide_False; [|done]. by rewrite IH.
Qed.

Lemma set_rows_column (c : string) (rows : list (nat * Series)) (vals : list value) :
  length vals = length rows →
  (λ ir : nat * Series, series_lookup c ir.2) <$> set_rows c rows vals
  = Some <$> vals.
Proof.
  revert vals. induction rows as [|[idx row] rows IH]; intros [|v vals] Hlen;
    simplify_eq/=; [done|].
  rewrite series_lookup_set_eq. f_equal. by apply IH.
Qed.

Lemma set_rows_other (c c' : string) (rows : list (nat * Series)) (vals : list value) :
  c' ≠ c → length vals = length rows →
  (λ ir : nat * Series, series_lookup c' ir.2) <$> set_rows c rows vals
  = (λ ir : nat * Series, series_lookup c' ir.2) <$> rows.
Proof.
  intros Hne. revert vals.
  induction rows as [|[idx row] rows IH]; intros [|v vals] Hlen;
    simplify_eq/=; [done|].
  rewrite series_lookup_set_ne; [|done]. f_equal. by apply IH.
Qed.

Lemma set_rows_index (c : string) (rows : list (nat * Series)) (vals : list value) :
  length vals = length rows → (set_rows c rows vals).*1 = rows.*1.
Proof.
  revert vals. induction rows as [|[idx row] rows IH]; intros [|v vals] Hlen;
    simplify_eq/=; [done|].
  f_equal. by apply IH.
Qed.

Lemma set_rows_idemp (c : string) (rows : list (nat * Series)) (vals : list value) :
  set_rows c (set_rows c rows vals) vals = set_rows c rows vals.
Proof.
  revert vals. induction rows as [|[idx row] rows IH]; intros [|v vals];
    simpl; try done.
  rewrite series_set_idemp. f_equal. apply IH.
Qed.

Lemma setitem_ok (c : string) (vals : list value) (df : DataFrame) :
  length vals = len df →
  setitem c vals df
  = inr {| columns := if decide (c ∈ columns df) then columns df
                      else columns df ++ [c];
           iterrows := set_rows c (iterrows df) vals |}.
Proof. intros Hlen. unfold setitem. by rewrite decide_True. Qed.

Lemma length_unique_id (literal : string) (n : nat) :
  length (unique_id literal n) = n.
Proof. unfold unique_id. by rewrite length_fmap, length_seq. Qed.

Lemma identifier_inj (literal : string) :
  Inj (=) (=) (λ i : nat, Some (Str (literal +:+ pretty i))).
Proof.
  intros i j Heq. injection Heq as Heq.
  apply String.app_inj in Heq. by apply (inj pretty) in Heq.
Qed.

Lemma unique_id_NoDup (literal : string) (n : nat) :
  NoDup (Some <$> unique_id literal n).
Proof.
  unfold unique_id. rewrite <- list_fmap_compose.
  apply (@NoDup_fmap_2 _ _ _ (identifier_inj literal)), NoDup_seq.
Qed.

Lemma add_unique_id_spec (literal : string) (df : DataFrame) :
  ∃ df', add_unique_id literal df = inr df'
    ∧ column_values "unique_id" df'
      = (λ i : nat, Some (Str (literal +:+ pretty i))) <$> seq 0 (len df)
    ∧ NoDup (column_values "unique_id" df')
    ∧ (iterrows df').*1 = (iterrows df).*1
    ∧ (∀ c, c ≠ "unique_id" → column_values c df' = column_values c df).
Proof.
  pose proof (length_unique_id literal (len df)) as Hlen.
  eexists. split; [by apply setitem_ok|]. unfold column_values; simpl.
  split_and!.
  - rewrite set_rows_column; [|done]. unfold unique_id.
    by rewrite <- list_fmap_compose.
  - rewrite set_rows_column; [|done]. apply unique_id_NoDup.
  - by apply set_rows_index.
  - intros c Hc. by apply set_rows_other.
Qed.

(** The loop of notebook 04 collects one identifier per row, from the row's
    index label. *)
Lemma internal_id_spec (literal : string) (df : DataFrame) :
  internal_id literal df
  = (λ idx : nat, Str (literal +:+ pretty idx)) <$> (iterrows df).*1.
Proof.
  unfold internal_id.
  assert (∀ (rows : list (nat * Series)) acc,
    foldl (λ (ids : list value) '(idx, _), ids ++ [Str (literal +:+ pretty idx)])
          acc rows
    = acc ++ ((λ idx : nat, Str (literal +:+ pretty idx)) <$> rows.*1)) as H.
  { induction rows as [|[idx row] rows IH]; intros acc; simpl.
    - by rewrite app_nil_r.
    - rewrite IH. by rewrite <- app_assoc. }
  apply H.
Qed.

Lemma insert_rows_column (column : string) (vals : list value)
    (rows : list (nat * Series)) :
  (λ ir : nat * Series, series_lookup column ir.2)
    <$> ((λ '(idx, row), (idx, (column, default NaN (vals !! idx)) :: row))
         <$> rows)
  = (λ idx : nat, Some (default NaN (vals !! idx))) <$> rows.*1.
Proof.
  induction rows as [|[idx row] rows IH]; csimpl; [done|].
  rewrite decide_True; [|done]. by rewrite IH.
Qed.

Lemma insert_rows_index (column : string) (vals : list value)
    (rows : list (nat * Series)) :
  ((λ '(idx, row), (idx, (column, default NaN (vals !! idx)) :: row))
   <$> rows).*1 = rows.*1.
Proof. induction rows as [|[idx row] rows IH]; csimpl; [done|]. by rewrite IH. Qed.

Lemma aligned_on_range (h : nat → value) (n : nat) :
  (λ idx : nat, Some (default NaN ((h <$> seq 0 n) !! idx))) <$> seq 0 n
  = (λ i : nat, Some (h i)) <$> seq 0 n.
Proof.
  apply list_fmap_ext. intros i x Hx. apply lookup_seq in Hx as [-> Hlt].
  simpl. by rewrite list_lookup_fmap, lookup_seq_lt.
Qed.

Lemma insert_internal_id_spec (column literal : string) (df : DataFrame) :
  RangeIndex df → column ∉ columns df →
  ∃ df', insert_internal_id column literal df = inr df'
    ∧ column_values column df'
      = (λ i : nat, Some (Str (literal +:+ pretty i))) <$> seq 0 (len df)
    ∧ NoDup (column_values column df')
    ∧ (iterrows df').*1 = (iterrows df).*1.
Proof.
  intros Hrange Hnew. unfold RangeIndex in Hrange.
  unfold insert_internal_id, insert.
  rewrite decide_False; [|done]. rewrite decide_False; [|lia].
  eexists. split; [done|]. unfold column_values; simpl.
  rewrite insert_rows_column, insert_rows_index, internal_id_spec, Hrange.
  rewrite (aligned_on_range (λ idx, Str (literal +:+ pretty idx))).
  split_and!; [done| |done].
  apply (@NoDup_fmap_2 _ _ _ (identifier_inj literal)), NoDup_seq.
Qed.

(** C4. The i-th record receives the identifier made of the prefix, a hyphen
    and the decimal index i, and the identifiers of a record set are pairwise
    distinct: for the list comprehension of the library exercise on every
    frame, and for the loop of notebook 04, which reads the index labels, on
    every frame as [read_csv] returns it. *)
Theorem AssignIdentifiers_spec (prefix : string) (df : DataFrame) :
  (∃ df', add_unique_id (prefix +:+ "-") df = inr df'
     ∧ column_values "unique_id" df'
       = (λ i : nat, Some (Str (prefix +:+ "-" +:+ pretty i))) <$> seq 0 (len df)
     ∧ NoDup (column_values "unique_id" df')
     ∧ (iterrows df').*1 = (iterrows df).*1
     ∧ (∀ c, c ≠ "unique_id" → column_values c df' = column_values c df))
  ∧ (∀ column, RangeIndex df → column ∉ columns df →
     ∃ df', insert_internal_id column (prefix +:+ "-") df = inr df'
       ∧ column_values column df'
         = (λ i : nat, Some (Str (prefix +:+ "-" +:+ pretty i))) <$> seq 0 (len df)
       ∧ NoDup (column_values column df')
       ∧ (iterrows df').*1 = (iterrows df).*1).
Proof.
  split.
  - destruct (add_unique_id_spec (prefix +:+ "-") df)
      as (df' & Hrun & Hcol & Hnd & Hidx & Hother).
    exists df'. split_and!; try done.
    rewrite Hcol. apply list_fmap_ext. intros _ i _.
    by rewrite string_app_assoc.
  - intros column Hrange Hnew.
    destruct (insert_internal_id_spec column (prefix +:+ "-") df Hrange Hnew)
      as (df' & Hrun & Hcol & Hnd & Hidx).
    exists df'. split_and!; try done.
    rewrite Hcol. apply list_fmap_ext. intros _ i _.
    by rewrite string_app_assoc.
Qed.

Lemma add_unique_id_again (literal : string) (df df' : DataFrame) :
  add_unique_id literal df = inr df' → add_unique_id literal df' = inr df'.
Proof.
  unfold add_unique_id. intros Hrun.
  rewrite setitem_ok in Hrun by apply length_unique_id.
  injection Hrun as <-.
  set (rows' := set_rows "unique_id" (iterrows df) (unique_id literal (len df))).
  assert (length rows' = len df) as Hl.
  { unfold rows', set_rows. rewrite length_zip_with_l_eq; [done|].
    by rewrite length_unique_id. }
  set (cols' := if decide ("unique_id" ∈ columns df) then columns df
                else columns df ++ ["unique_id"]).
  assert (len {| columns := cols'; iterrows := rows' |} = len df) as Hlen'
    by exact Hl.
  rewrite Hlen'. rewrite setitem_ok by (by rewrite length_unique_id).
  cbn [columns iterrows]. f_equal. f_equal.
  - assert ("unique_id" ∈ cols') as Hin.
    { unfold cols'. case_decide; [done|]. set_solver. }
    by rewrite decide_True.
  - apply set_rows_idemp.
Qed.

(** C5. The identifiers depend on the row positions only: two frames with the
    same number of rows receive the same identifiers row by row, whatever
    their cells, and running the assignment again on its own result changes
    nothing. *)
Theorem AssignIdentifiers_stable (literal : string) (df1 df2 : DataFrame) :
  len df1 = len df2 →
  ∃ df1' df2',
    add_unique_id literal df1 = inr df1'
    ∧ add_unique_id literal df2 = inr df2'
    ∧ column_values "unique_id" df1' = column_values "unique_id" df2'
    ∧ add_unique_id literal df1' = inr df1'.
Proof.
  intros Hlen.
  destruct (add_unique_id_spec literal df1) as (df1' & Hrun1 & Hcol1 & _).
  destruct (add_unique_id_spec literal df2) as (df2' & Hrun2 & Hcol2 & _).
  exists df1', df2'. split_and!; try done.
  - by rewrite Hcol1, Hcol2, Hlen.
  - by apply (add_unique_id_again literal df1).
Qed.

End identifiers.

(** ** Join *)

Section join.
Import Py Pandas.


Lemma merge_len (l r : DataFrame) (left_on right_on : string) (h : how)
    (df : DataFrame) :
  merge l r left_on right_on h = inr df →
  len df = length (merge_rows h left_on right_on l r).
Proof.
  unfold merge. repeat case_decide; intros Heq; simplify_eq.
  unfold len; simpl. by rewrite length_imap.
Qed.








Lemma bind_length {A B} (f : A → list B) (l : list A) :
  length (l ≫= f) = sum_list (length ∘ f <$> l).
Proof.
  induction l as [|x l IH]; [done|].
  rewrite bind_cons, length_app, IH. done.
Qed.




End join.

Section library_db.
Import Py Pandas Sqlite Library.

Lemma execute_insert_run (name : string) (cols : list string)
    (params : list value) (e : env) (t : table) :
  is_open (con e) = true → view (con e) !! name = Some t →
  execute_insert name cols params e
  = let row := (λ c, text_affinity
                       (default NULL
                          (assoc (col_name c) (zip cols (bind_param <$> params)))))
               <$> tcolumns t in
    match violation name t (tcolumns t) row with
    | Some msg =>
        (inl (IntegrityError msg),
         {| db_file := db_file e;
            con := {| is_open := true; in_transaction := true;
                      view := view (con e) |} |})
    | None =>
        (inr (),
         {| db_file := db_file e;
            con := {| is_open := true; in_transaction := true;
                      view := <[name := {| tcolumns := tcolumns t;
                                           trows := trows t ++ [row] |}]>
                                (view (con e)) |} |})
    end.
Proof.
  intros Hopen Hview. unfold execute_insert, bind, get; simpl.
  rewrite Hopen, Hview; simpl.
  destruct (violation name t (tcolumns t) _); reflexivity.
Qed.

Lemma insert_publisher_run (ir : nat * Series) (e : env) (t : table) :
  is_open (con e) = true → view (con e) !! "Publisher" = Some t →
  tcolumns t = Publisher_columns →
  db_file (insert_publisher ir e).2 = db_file e
  ∧ is_open (con (insert_publisher ir e).2) = true
  ∧ ((insert_publisher ir e).1 = inr () →
      Forall (λ c, is_Some (series_lookup c ir.2)) ["id"; "name"; "unique_id"]
      ∧ view (con (insert_publisher ir e).2)
        = <["Publisher" := {| tcolumns := Publisher_columns;
                              trows := trows t ++ [stored ["id"; "name"; "unique_id"] ir.2] |}]>
            (view (con e))).
Proof.
  intros Hopen Hview Hcols. unfold insert_publisher, bind, lift, getitem.
  destruct (series_lookup "id" ir.2) as [id_|] eqn:Hid; [|done].
  destruct (series_lookup "name" ir.2) as [name_|] eqn:Hname; [|done].
  destruct (series_lookup "unique_id" ir.2) as [uid_|] eqn:Huid; [|done].
  rewrite (execute_insert_run _ _ _ e t Hopen Hview). rewrite Hcols.
  assert (stored ["id"; "name"; "unique_id"] ir.2
          = text_affinity ∘ bind_param <$> [id_; name_; uid_]) as ->
    by (unfold stored; simpl; by rewrite Hid, Hname, Huid).
  cbv zeta.
  destruct (violation _ _ _ _); simpl; [done|].
  split_and!; [done..|]. intros _. split; [|done].
  repeat (apply Forall_cons; split; [by eexists|]). apply Forall_nil_2.
Qed.

Lemma insert_resource_run (ir : nat * Series) (e : env) (t : table) :
  is_open (con e) = true → view (con e) !! "BibliographicResource" = Some t →
  tcolumns t = BibliographicResource_columns →
  db_file (insert_resource ir e).2 = db_file e
  ∧ is_open (con (insert_resource ir e).2) = true
  ∧ ((insert_resource ir e).1 = inr () →
      Forall (λ c, is_Some (series_lookup c ir.2))
             ["id"; "title"; "type"; "publisher"; "unique_id"]
      ∧ view (con (insert_resource ir e).2)
        = <["BibliographicResource" :=
              {| tcolumns := BibliographicResource_columns;
                 trows := trows t
                          ++ [stored ["id"; "title"; "type"; "publisher"; "unique_id"]
                                     ir.2] |}]>
            (view (con e))).
Proof.
  intros Hopen Hview Hcols. unfold insert_resource, bind, lift, getitem.
  destruct (series_lookup "id" ir.2) as [id_|] eqn:Hid; [|done].
  destruct (series_lookup "title" ir.2) as [title_|] eqn:Htitle; [|done].
  destruct (series_lookup "type" ir.2) as [type_|] eqn:Htype; [|done].
  destruct (series_lookup "publisher" ir.2) as [pub_|] eqn:Hpub; [|done].
  destruct (series_lookup "unique_id" ir.2) as [uid_|] eqn:Huid; [|done].
  rewrite (execute_insert_run _ _ _ e t Hopen Hview). rewrite Hcols.
  assert (stored ["id"; "title"; "type"; "publisher"; "unique_id"] ir.2
          = text_affinity ∘ bind_param <$> [id_; title_; type_; pub_; uid_]) as ->
    by (unfold stored; simpl; by rewrite Hid, Htitle, Htype, Hpub, Huid).
  cbv zeta.
  destruct (violation _ _ _ _); simpl; [done|].
  split_and!; [done..|]. intros _. split; [|done].
  repeat (apply Forall_cons; split; [by eexists|]). apply Forall_nil_2.
Qed.

Section insert_loop.
Variables (name : string) (schema : list column) (cols : list string).
Variable body : nat * Series → M env unit.
Hypothesis body_run : ∀ ir e t,
  is_open (con e) = true → view (con e) !! name = Some t →
  tcolumns t = schema →
  db_file (body ir e).2 = db_file e
  ∧ is_open (con (body ir e).2) = true
  ∧ ((body ir e).1 = inr () →
      Forall (λ c, is_Some (series_lookup c ir.2)) cols
      ∧ view (con (body ir e).2)
        = <[name := {| tcolumns := schema;
                       trows := trows t ++ [stored cols ir.2] |}]> (view (con e))).

Lemma for_each_inserts (rows : list (nat * Series)) (e : env) (t : table) :
  is_open (con e) = true → view (con e) !! name = Some t →
  tcolumns t = schema →
  db_file (for_each rows body e).2 = db_file e
  ∧ is_open (con (for_each rows body e).2) = true
  ∧ ((for_each rows body e).1 = inr () →
      Forall (λ row, Forall (λ c, is_Some (series_lookup c row)) cols) rows.*2
      ∧ view (con (for_each rows body e).2)
        = <[name := {| tcolumns := schema;
                       trows := trows t ++ (stored cols <$> rows.*2) |}]>
            (view (con e))).
Proof.
  revert e t. induction rows as [|ir rows IH]; intros e t Hopen Hview Hcols.
  - simpl. split_and!; [done..|]. intros _. split; [done|].
    rewrite app_nil_r. symmetry. apply insert_id.
    rewrite Hview. f_equal. destruct t; simpl in *. by subst.
  - simpl. unfold bind.
    destruct (body_run ir e t Hopen Hview Hcols) as (Hfile & Hopen' & Hok).
    destruct (body ir e) as [[x|[]] e1]; simpl in *; [done|].
    destruct (Hok eq_refl) as [Hpresent Hview1]. clear Hok.
    destruct (IH e1 {| tcolumns := schema;
                       trows := trows t ++ [stored cols ir.2] |})
      as (Hfile2 & Hopen2 & Hok2); [done| |done|].
    { rewrite Hview1. apply lookup_insert_eq. }
    split_and!; [congruence|done|]. intros Hrun.
    destruct (Hok2 Hrun) as [Hpresent2 Hview2]. split.
    + by apply Forall_cons.
    + rewrite Hview2, Hview1, insert_insert_eq. simpl.
      by rewrite <- app_assoc.
Qed.

End insert_loop.

Lemma prelude_run (e : env) :
  (os_remove ;;; connect ;;;
   execute_create_table "Publisher" Publisher_columns ;;;
   execute_create_table "BibliographicResource" BibliographicResource_columns) e
  = (inr (), {| db_file := empty_tables;
                con := {| is_open := true; in_transaction := false;
                          view := empty_tables |} |}).
Proof. reflexivity. Qed.

Lemma commit_run (e : env) :
  is_open (con e) = true →
  commit e = (inr (), {| db_file := view (con e);
                         con := {| is_open := true; in_transaction := false;
                                   view := view (con e) |} |}).
Proof. intros Hopen. unfold commit, bind, get, put. by rewrite Hopen. Qed.

Lemma filled_over_empty (p b : table) :
  <["BibliographicResource" := b]> (<["Publisher" := p]> empty_tables)
  = <["BibliographicResource" := b]> (<["Publisher" := p]> ∅).
Proof.
  unfold empty_tables. apply map_eq. intros k.
  destruct (decide (k = "BibliographicResource")) as [->|Hb];
    [by rewrite !lookup_insert_eq|].
  rewrite !(lookup_insert_ne _ "BibliographicResource") by done.
  destruct (decide (k = "Publisher")) as [->|Hp];
    [by rewrite !lookup_insert_eq|].
  rewrite !lookup_insert_ne by done. done.
Qed.

(** The cell of exercise 3 ends in one of two ways: every statement ran, the
    rows are in the file and the connection is closed; or a statement raised,
    no row is in the file and the connection is still open. *)
Lemma create_database_run (publishers_df bibliographic_df : DataFrame) (e : env) :
  ((create_database publishers_df bibliographic_df e).1 = inr ()
   ∧ (create_database publishers_df bibliographic_df e).2
     = {| db_file := filled_tables publishers_df bibliographic_df;
          con := {| is_open := false; in_transaction := false;
                    view := filled_tables publishers_df bibliographic_df |} |}
   ∧ Forall (λ row, Forall (λ c, is_Some (series_lookup c row))
                           ["id"; "name"; "unique_id"])
            (iterrows publishers_df).*2
   ∧ Forall (λ row, Forall (λ c, is_Some (series_lookup c row))
                           ["id"; "title"; "type"; "publisher"; "unique_id"])
            (iterrows bibliographic_df).*2)
  ∨ (∃ x, (create_database publishers_df bibliographic_df e).1 = inl x
        ∧ is_open (con (create_database publishers_df bibliographic_df e).2) = true
        ∧ db_file (create_database publishers_df bibliographic_df e).2
          = empty_tables).
Proof.
  destruct (create_database publishers_df bibliographic_df e) as [r e']
    eqn:Hrun; cbn [fst snd].
  set (e1 := {| db_file := empty_tables;
                con := {| is_open := true; in_transaction := false;
                          view := empty_tables |} |}).
  assert (create_database publishers_df bibliographic_df e
          = (for_each (iterrows publishers_df) insert_publisher ;;;
             for_each (iterrows bibliographic_df) insert_resource ;;;
             commit ;;; close) e1) as Hstart by reflexivity.
  rewrite Hstart in Hrun. clear Hstart. unfold bind at 1 in Hrun.
  destruct (for_each_inserts "Publisher" Publisher_columns
              ["id"; "name"; "unique_id"] insert_publisher insert_publisher_run
              (iterrows publishers_df) e1
              {| tcolumns := Publisher_columns; trows := [] |})
    as (Hfile & Hopen & Hok); [done..|].
  destruct (for_each (iterrows publishers_df) insert_publisher e1)
    as [[x|[]] e2]; cbn [fst snd] in *.
  { injection Hrun as <- <-. right. by exists x. }
  destruct (Hok eq_refl) as [Hpresent Hview]. clear Hok.
  unfold bind at 1 in Hrun.
  destruct (for_each_inserts "BibliographicResource"
              BibliographicResource_columns
              ["id"; "title"; "type"; "publisher"; "unique_id"]
              insert_resource insert_resource_run
              (iterrows bibliographic_df) e2
              {| tcolumns := BibliographicResource_columns; trows := [] |})
    as (Hfile3 & Hopen3 & Hok3); [done| |done|].
  { rewrite Hview. by rewrite lookup_insert_ne. }
  destruct (for_each (iterrows bibliographic_df) insert_resource e2)
    as [[x|[]] e3]; cbn [fst snd] in *.
  { injection Hrun as <- <-. right. exists x. by rewrite Hfile3, Hfile. }
  destruct (Hok3 eq_refl) as [Hpresent3 Hview3]. clear Hok3.
  unfold bind in Hrun. rewrite (commit_run e3 Hopen3) in Hrun.
  unfold close, modify in Hrun. cbn [db_file con view] in Hrun.
  injection Hrun as <- <-. left.
  split_and!; [done| |done..].
  rewrite Hview3, Hview. unfold filled_tables.
  by rewrite filled_over_empty.
Qed.

End library_db.

(** ** The RDF graph *)

Section graph.
Import Py Pandas Rdflib.

Lemma add_venue_run (base : string) (ir : nat * Series) (st : state) :
  match venue_statements base ir with
  | Some stmts =>
      add_venue base ir st
      = (inr (), {| my_graph := stmts ∪ my_graph st;
                    venue_internal_id :=
                      venue_index base [ir] (venue_internal_id st) |})
  | None => ∃ x, (add_venue base ir st).1 = inl x
  end.
Proof.
  destruct ir as [idx row].
  unfold venue_statements, venue_index, venue_entry, add_venue, bind, lift,
    getitem, add, modify; cbn [fst snd foldl].
  destruct (series_lookup "id" row) as [id_|]; cbn [mbind option_bind];
    [|by eexists].
  destruct (series_lookup "type" row) as [type_|]; cbn [mbind option_bind];
    [|by eexists].
  destruct (decide (type_ = Str "journal"));
    (destruct (series_lookup "name" row) as [name_|]; cbn [mbind option_bind];
       [|by eexists]);
    cbn [my_graph venue_internal_id]; do 2 f_equal; set_solver.
Qed.

Lemma add_publication_run (base : string) (ir : nat * Series) (st : state) :
  match publication_statements base (venue_internal_id st) ir with
  | Some stmts =>
      add_publication base ir st
      = (inr (), {| my_graph := stmts ∪ my_graph st;
                    venue_internal_id := venue_internal_id st |})
  | None => ∃ x, (add_publication base ir st).1 = inl x
  end.
Proof.
  destruct ir as [idx row]. destruct st as [g d].
  unfold publication_statements, add_publication, bind, lift, getitem, add,
    modify, get, raise; cbn [fst snd my_graph venue_internal_id].
  destruct (series_lookup "type" row) as [type_|]; cbn [mbind option_bind];
    [|by eexists].
  destruct (decide (type_ = Str "journal article")).
  - destruct (series_lookup "issue" row) as [issue_|]; cbn [mbind option_bind];
      [|by eexists].
    destruct (series_lookup "volume" row) as [volume_|]; cbn [mbind option_bind];
      [|by eexists].
    destruct (series_lookup "title" row) as [title_|]; cbn [mbind option_bind];
      [|by eexists].
    destruct (series_lookup "doi" row) as [doi_|]; cbn [mbind option_bind];
      [|by eexists].
    destruct (series_lookup "publication year" row) as [year_|];
      cbn [mbind option_bind]; [|by eexists].
    destruct (series_lookup "publication venue" row) as [venue_|];
      cbn [mbind option_bind my_graph venue_internal_id]; [|by eexists].
    destruct (d !! venue_) as [v|]; cbn [mbind option_bind]; [|by eexists].
    cbn [my_graph venue_internal_id]. do 2 f_equal. set_solver.
  - destruct (series_lookup "title" row) as [title_|]; cbn [mbind option_bind];
      [|by eexists].
    destruct (series_lookup "doi" row) as [doi_|]; cbn [mbind option_bind];
      [|by eexists].
    destruct (series_lookup "publication year" row) as [year_|];
      cbn [mbind option_bind]; [|by eexists].
    destruct (series_lookup "publication venue" row) as [venue_|];
      cbn [mbind option_bind my_graph venue_internal_id]; [|by eexists].
    destruct (d !! venue_) as [v|]; cbn [mbind option_bind]; [|by eexists].
    cbn [my_graph venue_internal_id]. do 2 f_equal. set_solver.
Qed.

Lemma venue_loop_run (base : string) (rows : list (nat * Series)) (st : state) :
  match union_all (venue_statements base) rows with
  | Some stmts =>
      for_each rows (add_venue base) st
      = (inr (), {| my_graph := stmts ∪ my_graph st;
                    venue_internal_id :=
                      venue_index base rows (venue_internal_id st) |})
  | None => ∃ x, (for_each rows (add_venue base) st).1 = inl x
  end.
Proof.
  revert st. induction rows as [|ir rows IH]; intros st.
  - cbn. destruct st. do 2 f_equal. set_solver.
  - cbn [union_all foldr for_each]. unfold bind.
    pose proof (add_venue_run base ir st) as Hstep.
    destruct (venue_statements base ir) as [stmts|]; cbn [mbind option_bind].
    + rewrite Hstep. cbv beta iota.
      specialize (IH {| my_graph := stmts ∪ my_graph st;
        venue_internal_id := venue_index base [ir] (venue_internal_id st) |}).
      fold (union_all (venue_statements base) rows).
      destruct (union_all (venue_statements base) rows) as [rest|];
        cbn [mbind option_bind]; [|done].
      rewrite IH. cbn [my_graph venue_internal_id]. do 2 f_equal. set_solver.
    + destruct Hstep as [x Hx]. exists x.
      by destruct (add_venue base ir st) as [[?|?] ?]; simplify_eq/=.
Qed.

Lemma publication_loop_run (base : string) (rows : list (nat * Series))
    (st : state) :
  match union_all (publication_statements base (venue_internal_id st)) rows with
  | Some stmts =>
      for_each rows (add_publication base) st
      = (inr (), {| my_graph := stmts ∪ my_graph st;
                    venue_internal_id := venue_internal_id st |})
  | None => ∃ x, (for_each rows (add_publication base) st).1 = inl x
  end.
Proof.
  revert st. induction rows as [|ir rows IH]; intros st.
  - cbn. destruct st. do 2 f_equal. set_solver.
  - cbn [union_all foldr for_each]. unfold bind.
    pose proof (add_publication_run base ir st) as Hstep.
    destruct (publication_statements base (venue_internal_id st) ir)
      as [stmts|]; cbn [mbind option_bind].
    + rewrite Hstep. cbv beta iota.
      specialize (IH {| my_graph := stmts ∪ my_graph st;
        venue_internal_id := venue_internal_id st |}).
      cbn [venue_internal_id] in IH.
      fold (union_all (publication_statements base (venue_internal_id st)) rows).
      destruct (union_all (publication_statements base (venue_internal_id st)) rows)
        as [rest|]; cbn [mbind option_bind]; [|done].
      rewrite IH. cbn [my_graph venue_internal_id]. do 2 f_equal. set_solver.
    + destruct Hstep as [x Hx]. exists x.
      by destruct (add_publication base ir st) as [[?|?] ?]; simplify_eq/=.
Qed.

Lemma union_all_Some (f : nat * Series → option (gset triple))
    (rows : list (nat * Series)) :
  Forall (λ ir, is_Some (f ir)) rows →
  ∃ all, union_all f rows = Some all
    ∧ ∀ t, t ∈ all ↔ ∃ ir stmts, ir ∈ rows ∧ f ir = Some stmts ∧ t ∈ stmts.
Proof.
  induction 1 as [|ir rows [stmts Hir] _ (rest & Hrest & Hin)].
  - exists ∅. split; [done|]. intros t. split; [set_solver|].
    intros (ir & stmts & Hir & _). by apply elem_of_nil in Hir.
  - exists (stmts ∪ rest). split.
    { cbn [union_all foldr]. fold (union_all f rows). by rewrite Hir, Hrest. }
    intros t. rewrite elem_of_union, Hin. split.
    + intros [Ht|(ir' & stmts' & Hir' & Hf & Ht)].
      * exists ir, stmts. split_and!; [left|done..].
      * exists ir', stmts'. split_and!; [by right|done..].
    + intros (ir' & stmts' & Hir' & Hf & Ht).
      apply elem_of_cons in Hir' as [->|Hir'].
      * left. by simplify_eq.
      * right. by exists ir', stmts'.
Qed.

(** The two loops on frames whose rows all have their statements: the
    script raises nothing and the graph is the union of the statements of
    the rows. *)
Lemma build_graph_run (base : string) (venues publications : DataFrame) :
  Forall (λ ir, is_Some (venue_statements base ir)) (iterrows venues) →
  Forall (λ ir, is_Some (publication_statements base
                           (venue_index base (iterrows venues) ∅) ir))
         (iterrows publications) →
  ∃ g, build_graph base venues publications initial
       = (inr (), {| my_graph := g;
                     venue_internal_id := venue_index base (iterrows venues) ∅ |})
    ∧ ∀ t, t ∈ g ↔
        (∃ ir stmts, ir ∈ iterrows venues
           ∧ venue_statements base ir = Some stmts ∧ t ∈ stmts)
        ∨ (∃ ir stmts, ir ∈ iterrows publications
             ∧ publication_statements base
                 (venue_index base (iterrows venues) ∅) ir = Some stmts
             ∧ t ∈ stmts).
Proof.
  intros Hv Hp.
  destruct (union_all_Some _ _ Hv) as (vs & Hvs & Hvin).
  destruct (union_all_Some _ _ Hp) as (ps & Hps & Hpin).
  exists (ps ∪ vs). split.
  - unfold build_graph, bind, initial.
    pose proof (venue_loop_run base (iterrows venues)
                  {| my_graph := ∅; venue_internal_id := ∅ |}) as Hrun.
    cbn [my_graph venue_internal_id] in Hrun.
    rewrite Hvs in Hrun. rewrite Hrun. cbv beta iota.
    pose proof (publication_loop_run base (iterrows publications)
      {| my_graph := vs ∪ ∅;
         venue_internal_id := venue_index base (iterrows venues) ∅ |}) as Hrun2.
    cbn [venue_internal_id my_graph] in Hrun2.
    rewrite Hps in Hrun2. rewrite Hrun2. do 2 f_equal. set_solver.
  - intros t. rewrite elem_of_union, Hvin, Hpin. tauto.
Qed.

(** An entry of the dictionary of venues comes from a venue row. *)
Lemma venue_index_lookup (base : string) (rows : list (nat * Series))
    (d : gmap value term) (k : value) (v : term) :
  venue_index base rows d !! k = Some v →
  d !! k = Some v
  ∨ ∃ ir, ir ∈ rows ∧ series_lookup "id" ir.2 = Some k
          ∧ v = resource base "venue-" ir.1.
Proof.
  revert d. induction rows as [|ir rows IH]; intros d; [by left|].
  cbn [venue_index foldl]. fold (venue_index base rows).
  intros Hk. apply IH in Hk as [Hk|(ir' & Hin & Hid & Hv)].
  - unfold venue_entry in Hk.
    destruct (series_lookup "id" ir.2) as [id_|] eqn:Hid;
      cbn [mbind option_bind] in Hk; [|by left].
    destruct (decide (id_ = k)) as [->|Hne].
    + rewrite lookup_insert_eq in Hk. simplify_eq.
      right. exists ir. split_and!; [left|done..].
    + rewrite lookup_insert_ne in Hk by done. by left.
  - right. exists ir'. split_and!; [by right|done..].
Qed.

End graph.

Section graph_rows.
Import Py Pandas Rdflib.

Lemma resource_inj (base prefix : string) (i j : nat) :
  resource base prefix i = resource base prefix j → i = j.
Proof.
  unfold resource. intros Heq. injection Heq as Heq.
  do 2 apply String.app_inj in Heq. by apply (inj pretty) in Heq.
Qed.

(** A venue row gives three statements about its resource: its class under
    [RDF.type], its name and its identifier. *)
Lemma venue_statements_spec (base : string) (ir : nat * Series)
    (stmts : gset triple) :
  venue_statements base ir = Some stmts →
  size stmts = 3
  ∧ (∀ t, t ∈ stmts → t.1.1 = resource base "venue-" ir.1)
  ∧ ∃ id_ type_ name_,
      series_lookup "id" ir.2 = Some id_
      ∧ series_lookup "type" ir.2 = Some type_
      ∧ series_lookup "name" ir.2 = Some name_
      ∧ stmts = {[ (resource base "venue-" ir.1, RDF_type,
                    if decide (type_ = Str "journal") then Journal else Book);
                   (resource base "venue-" ir.1, name, Literal_of name_);
                   (resource base "venue-" ir.1, identifier, Literal_of id_) ]}.
Proof.
  unfold venue_statements.
  destruct (series_lookup "id" ir.2) as [id_|]; [|done].
  destruct (series_lookup "type" ir.2) as [type_|]; [|done].
  destruct (series_lookup "name" ir.2) as [name_|]; [|done].
  cbn [mbind option_bind]. intros [= <-]. split_and!.
  - rewrite !size_union, !size_singleton; [done|set_solver..].
  - intros t Ht. set_solver.
  - by exists id_, type_, name_.
Qed.

(** A publication row gives one statement for its class, its title, its doi,
    its year and its venue, and for its issue and its volume when, and only
    when, its type is "journal article". *)
Lemma publication_statements_spec (base : string) (d : gmap value term)
    (ir : nat * Series) (stmts : gset triple) :
  publication_statements base d ir = Some stmts →
  let subj := resource base "publication-" ir.1 in
  (∀ t, t ∈ stmts → t.1.1 = subj)
  ∧ ∃ type_ title_ doi_ year_ venue_ v,
      series_lookup "type" ir.2 = Some type_
      ∧ series_lookup "title" ir.2 = Some title_
      ∧ series_lookup "doi" ir.2 = Some doi_
      ∧ series_lookup "publication year" ir.2 = Some year_
      ∧ series_lookup "publication venue" ir.2 = Some venue_
      ∧ d !! venue_ = Some v
      ∧ (type_ = Str "journal article" →
         size stmts = 7
         ∧ ∃ issue_ volume_,
             series_lookup "issue" ir.2 = Some issue_
             ∧ series_lookup "volume" ir.2 = Some volume_
             ∧ stmts = {[ (subj, RDF_type, JournalArticle);
                          (subj, issue, Literal_of issue_);
                          (subj, volume, Literal_of volume_);
                          (subj, name, Literal_of title_);
                          (subj, identifier, Literal_of doi_);
                          (subj, publicationYear, Literal (str year_) None);
                          (subj, publicationVenue, v) ]})
      ∧ (type_ ≠ Str "journal article" →
         size stmts = 5
         ∧ stmts = {[ (subj, RDF_type, BookChapter);
                      (subj, name, Literal_of title_);
                      (subj, identifier, Literal_of doi_);
                      (subj, publicationYear, Literal (str year_) None);
                      (subj, publicationVenue, v) ]}).
Proof.
  unfold publication_statements.
  destruct (series_lookup "type" ir.2) as [type_|]; [|done].
  cbn [mbind option_bind].
  destruct (decide (type_ = Str "journal article")) as [Hty|Hty].
  - destruct (series_lookup "issue" ir.2) as [issue_|]; [|done].
    destruct (series_lookup "volume" ir.2) as [volume_|]; [|done].
    destruct (series_lookup "title" ir.2) as [title_|]; [|done].
    destruct (series_lookup "doi" ir.2) as [doi_|]; [|done].
    destruct (series_lookup "publication year" ir.2) as [year_|]; [|done].
    destruct (series_lookup "publication venue" ir.2) as [venue_|]; [|done].
    cbn [mbind option_bind].
    destruct (d !! venue_) as [v|] eqn:Hv; [|done].
    cbn [mbind option_bind]. intros [= <-]. split.
    + intros t Ht. set_solver.
    + exists type_, title_, doi_, year_, venue_, v. split_and!; try done.
      intros _. split.
      * rewrite !size_union, !size_singleton; [done|set_solver..].
      * exists issue_, volume_. split_and!; [done..|]. set_solver.
  - destruct (series_lookup "title" ir.2) as [title_|]; [|done].
    destruct (series_lookup "doi" ir.2) as [doi_|]; [|done].
    destruct (series_lookup "publication year" ir.2) as [year_|]; [|done].
    destruct (series_lookup "publication venue" ir.2) as [venue_|]; [|done].
    cbn [mbind option_bind].
    destruct (d !! venue_) as [v|] eqn:Hv; [|done].
    cbn [mbind option_bind]. intros [= <-]. split.
    + intros t Ht. set_solver.
    + exists type_, title_, doi_, year_, venue_, v. split_and!; try done.
      intros _. split.
      * rewrite !size_union, !size_singleton; [done|set_solver..].
      * set_solver.
Qed.

Lemma index_label_unique (rows : list (nat * Series)) (x y : nat * Series) :
  NoDup rows.*1 → x ∈ rows → y ∈ rows → x.1 = y.1 → x = y.
Proof.
  induction rows as [|r rows IH]; csimpl; intros Hnd Hx Hy Heq.
  - by apply elem_of_nil in Hx.
  - apply NoDup_cons in Hnd as [Hr Hnd].
    apply elem_of_cons in Hx as [->|Hx]; apply elem_of_cons in Hy as [->|Hy].
    + done.
    + exfalso. apply Hr. rewrite Heq. by apply list_elem_of_fmap_2.
    + exfalso. apply Hr. rewrite <- Heq. by apply list_elem_of_fmap_2.
    + by apply IH.
Qed.

End graph_rows.

(** ** Graph mode *)

Section graph_mode.
Import Py Pandas Rdflib.

(** C7, as the code has it.  On frames whose rows have their labels, whose
    mapped cells hold a value and whose publication venues are ids of venue
    rows, the script raises nothing and the graph holds exactly the
    statements of the rows, one per mapped attribute: three for a venue;
    five for a publication, and two more, for its issue and its volume, when
    and only when its type is "journal article".  The subject of every
    statement of a row is the base URL followed by the internal identifier of
    the row; the class is stated with [RDF.type]; the object of the venue
    statement is the resource of a venue row with that id. *)
Theorem graph_mode_statements (base : string) (venues publications : DataFrame) :
  let d := venue_index base (iterrows venues) ∅ in
  Forall (λ ir, is_Some (venue_statements base ir)) (iterrows venues) →
  Forall (λ ir, is_Some (publication_statements base d ir))
         (iterrows publications) →
  Forall (λ ir, forallb (filled ir.2) venue_labels = true) (iterrows venues) →
  Forall (λ ir, forallb (filled ir.2) (publication_labels ir.2) = true)
         (iterrows publications) →
  ∃ g, build_graph base venues publications initial
       = (inr (), {| my_graph := g; venue_internal_id := d |})
    ∧ (∀ t, t ∈ g ↔
         (∃ ir stmts, ir ∈ iterrows venues
            ∧ venue_statements base ir = Some stmts ∧ t ∈ stmts)
         ∨ (∃ ir stmts, ir ∈ iterrows publications
              ∧ publication_statements base d ir = Some stmts ∧ t ∈ stmts))
    ∧ (∀ ir, ir ∈ iterrows venues →
         ∃ stmts, venue_statements base ir = Some stmts
           ∧ stmts ⊆ g
           ∧ size stmts = length venue_labels
           ∧ (∀ t, t ∈ stmts → t.1.1 = resource base "venue-" ir.1)
           ∧ ∃ class, (resource base "venue-" ir.1, RDF_type, class) ∈ stmts)
    ∧ (∀ ir, ir ∈ iterrows publications →
         ∃ stmts, publication_statements base d ir = Some stmts
           ∧ stmts ⊆ g
           ∧ size stmts = length (publication_labels ir.2)
           ∧ (∀ t, t ∈ stmts → t.1.1 = resource base "publication-" ir.1)
           ∧ (∃ class,
                (resource base "publication-" ir.1, RDF_type, class) ∈ stmts)
           ∧ (series_lookup "type" ir.2 ≠ Some (Str "journal article") →
              ∀ t, t ∈ stmts → t.1.2 ≠ issue ∧ t.1.2 ≠ volume)
           ∧ ∃ venue_ vir,
               series_lookup "publication venue" ir.2 = Some venue_
               ∧ vir ∈ iterrows venues
               ∧ series_lookup "id" vir.2 = Some venue_
               ∧ (resource base "publication-" ir.1, publicationVenue,
                  resource base "venue-" vir.1) ∈ stmts).
Proof.
  intros d Hv Hp _ _.
  destruct (build_graph_run base venues publications Hv Hp) as (g & Hrun & Hg).
  exists g. split_and!; [done|done| |].
  - intros ir Hir.
    destruct (proj1 (Forall_forall _ _) Hv ir Hir) as [stmts Hs].
    exists stmts. split; [done|]. split.
    { intros t Ht. apply Hg. left. by exists ir, stmts. }
    destruct (venue_statements_spec base ir stmts Hs)
      as (Hsize & Hsubj & id_ & type_ & name_ & _ & _ & _ & ->).
    split_and!; [done..|].
    exists (if decide (type_ = Str "journal") then Journal else Book).
    set_solver.
  - intros ir Hir.
    destruct (proj1 (Forall_forall _ _) Hp ir Hir) as [stmts Hs].
    exists stmts. split; [done|]. split.
    { intros t Ht. apply Hg. right. by exists ir, stmts. }
    destruct (publication_statements_spec base d ir stmts Hs)
      as (Hsubj & type_ & title_ & doi_ & year_ & venue_ & v & Hty & _ & _
          & _ & Hvenue & Hd & Harticle & Hother).
    apply venue_index_lookup in Hd as [Hd|(vir & Hvir & Hid & ->)];
      [by rewrite lookup_empty in Hd|].
    unfold publication_labels. rewrite Hty.
    destruct (decide (type_ = Str "journal article")) as [->|Hne].
    + destruct (Harticle eq_refl) as (Hsize & issue_ & volume_ & _ & _ & ->).
      rewrite decide_True by done.
      split_and!; [done..| | |].
      * exists JournalArticle. set_solver.
      * done.
      * exists venue_, vir. split_and!; [done..|]. set_solver.
    + destruct (Hother Hne) as (Hsize & ->).
      rewrite decide_False by congruence.
      split_and!; [done..| | |].
      * exists BookChapter. set_solver.
      * intros _ t Ht.
        unfold issue, volume, RDF_type, name, identifier, publicationYear,
          publicationVenue in *.
        set_solver.
      * exists venue_, vir. split_and!; [done..|]. set_solver.
Qed.

(** C7, as the spec has it, fails: a book chapter with an issue and a volume
    has seven cells, none of them empty, and five statements; none of them
    has the issue or the volume predicate. *)
Lemma graph_mode_chapter_issue_left_out :
  (build_graph base_url Samples.one_book Samples.chapter_with_issue initial).1
  = inr ()
  ∧ (iterrows Samples.chapter_with_issue).*2
    = [[("doi", Str "10.1002/9780470291092.ch20");
        ("title", Str "Mechanisms of Toughening");
        ("publication year", Int 1981);
        ("publication venue", Str "9780470291092");
        ("type", Str "book chapter");
        ("issue", Str "7");
        ("volume", Str "2")]]
  ∧ size (filter (λ t, t.1.1 = resource base_url "publication-" 0)
            (my_graph (build_graph base_url Samples.one_book
                         Samples.chapter_with_issue initial).2)) = 5
  ∧ size (filter (λ t, t.1.2 = issue ∨ t.1.2 = volume)
            (my_graph (build_graph base_url Samples.one_book
                         Samples.chapter_with_issue initial).2)) = 0.
Proof. split_and!; compute_done. Qed.

Lemma graph_mode_statements_witness :
  ∃ g, build_graph base_url Samples.venues Samples.publications initial
       = (inr (), {| my_graph := g;
                     venue_internal_id :=
                       venue_index base_url (iterrows Samples.venues) ∅ |}).
Proof.
  destruct (graph_mode_statements base_url Samples.venues Samples.publications)
    as (g & Hrun & _); [compute_done..|].
  exists g. exact Hrun.
Defined.

(** The counts the notebook prints: 12 statements after the venues, 31 after
    the publications. *)
Example notebook_graph_sizes :
  size (my_graph (Py.for_each (iterrows Samples.venues) (add_venue base_url)
                    initial).2) = 12
  ∧ size (my_graph (build_graph base_url Samples.venues Samples.publications
                      initial).2) = 31.
Proof. split; compute_done. Qed.

End graph_mode.

(** ** The connection and the store around a batch of writes *)

Section batches.
Import Py Pandas Sqlite Library Rdflib.

Lemma store_add_run (endpoint : triple → bool) (t : triple)
    (s : SPARQLUpdateStore) :
  store_is_open s = true →
  store_add endpoint t s
  = if endpoint t then
      (inr (), {| store_is_open := true; statements := {[t]} ∪ statements s |})
    else (inl (ConnectionError "endpoint unreachable"), s).
Proof.
  intros Hopen. unfold store_add, bind, get, put, raise. rewrite Hopen.
  by destruct (endpoint t).
Qed.

Lemma store_loop_run (endpoint : triple → bool) (l : list triple)
    (s : SPARQLUpdateStore) :
  store_is_open s = true →
  if forallb endpoint l then
    for_each l (store_add endpoint) s
    = (inr (), {| store_is_open := true;
                  statements := list_to_set l ∪ statements s |})
  else
    (∃ x, (for_each l (store_add endpoint) s).1 = inl x)
    ∧ store_is_open (for_each l (store_add endpoint) s).2 = true.
Proof.
  revert s. induction l as [|t l IH]; intros s Hopen.
  - cbn. destruct s; simpl in *; subst. do 2 f_equal. set_solver.
  - cbn [forallb for_each]. unfold bind.
    rewrite (store_add_run endpoint t s Hopen).
    destruct (endpoint t); cbn [andb].
    + specialize (IH {| store_is_open := true;
                        statements := {[t]} ∪ statements s |} eq_refl).
      destruct (forallb endpoint l); [|done].
      rewrite IH. cbn [statements]. do 2 f_equal. set_solver.
    + split; [by eexists|done].
Qed.

(** The upload ends in one of two ways: the endpoint answered every request,
    the store holds the graph and the proxy is closed; or a request failed
    and the proxy is still open. *)
Lemma upload_run (endpoint : triple → bool) (g : gset triple)
    (s : SPARQLUpdateStore) :
  if forallb endpoint (elements g) then
    upload endpoint g s
    = (inr (), {| store_is_open := false; statements := g ∪ statements s |})
  else
    (∃ x, (upload endpoint g s).1 = inl x)
    ∧ store_is_open (upload endpoint g s).2 = true.
Proof.
  set (s1 := {| store_is_open := true; statements := statements s |}).
  assert (upload endpoint g s
          = match for_each (elements g) (store_add endpoint) s1 with
            | (inr _, s') => store_close s'
            | (inl x, s') => (inl x, s')
            end) as -> by reflexivity.
  pose proof (store_loop_run endpoint (elements g) s1 eq_refl) as Hloop.
  destruct (forallb endpoint (elements g)).
  - rewrite Hloop. unfold store_close, modify. cbn [statements s1].
    by rewrite list_to_set_elements_L.
  - destruct Hloop as [[x Hx] Hopen].
    destruct (for_each (elements g) (store_add endpoint) s1) as [r s'].
    cbn [fst snd] in Hx, Hopen. subst r. cbn [fst snd].
    split; [by eexists|done].
Qed.

(** C8, as the code has it.  The cell that fills [library.db] and the cell
    that uploads the graph end with the connection committed and closed when
    every statement of the batch ran; when a statement raised, the batch
    stops there with the connection still open (and, for the database, no
    row committed). *)
Theorem batch_connection_release (publishers_df bibliographic_df : DataFrame)
    (e : env) (endpoint : triple → bool) (g : gset triple)
    (s : SPARQLUpdateStore) :
  (((create_database publishers_df bibliographic_df e).1 = inr ()
    ∧ is_open (con (create_database publishers_df bibliographic_df e).2) = false
    ∧ in_transaction (con (create_database publishers_df bibliographic_df e).2)
      = false
    ∧ db_file (create_database publishers_df bibliographic_df e).2
      = filled_tables publishers_df bibliographic_df)
   ∨ (∃ x, (create_database publishers_df bibliographic_df e).1 = inl x
         ∧ is_open (con (create_database publishers_df bibliographic_df e).2)
           = true
         ∧ db_file (create_database publishers_df bibliographic_df e).2
           = empty_tables))
  ∧ (if forallb endpoint (elements g) then
       (upload endpoint g s).1 = inr ()
       ∧ store_is_open (upload endpoint g s).2 = false
       ∧ statements (upload endpoint g s).2 = g ∪ statements s
     else
       (∃ x, (upload endpoint g s).1 = inl x)
       ∧ store_is_open (upload endpoint g s).2 = true).
Proof.
  split.
  - destruct (create_database_run publishers_df bibliographic_df e)
      as [(Hok & Hstate & _)|Herr]; [left|by right].
    by rewrite Hstate.
  - pose proof (upload_run endpoint g s) as Hup.
    destruct (forallb endpoint (elements g)); [|done]. by rewrite Hup.
Qed.

(** C8, as the spec has it, fails: with two publishers under one id the
    second [INSERT] raises, [commit] and [close] are not reached, and the
    cell ends with the connection open, inside a transaction, and no row
    in the file. *)
Lemma batch_error_leaves_connection_open :
  (create_database
     (Samples.with_unique_id "publisher-" Samples.two_publishers_same_id)
     (Samples.with_unique_id "biblio-" Samples.one_resource)
     Samples.before).1
  = inl (IntegrityError "UNIQUE constraint failed: Publisher.id")
  ∧ con (create_database
           (Samples.with_unique_id "publisher-" Samples.two_publishers_same_id)
           (Samples.with_unique_id "biblio-" Samples.one_resource)
           Samples.before).2
    = {| is_open := true; in_transaction := true;
         view := <["Publisher" :=
                     {| tcolumns := Publisher_columns;
                        trows := [[TEXT "crossref:15"; TEXT "Press A";
                                   TEXT "publisher-0"]] |}]> empty_tables |}
  ∧ db_file (create_database
               (Samples.with_unique_id "publisher-"
                  Samples.two_publishers_same_id)
               (Samples.with_unique_id "biblio-" Samples.one_resource)
               Samples.before).2
    = empty_tables.
Proof. split_and!; vm_compute; reflexivity. Qed.

End batches.

(** ** Persist and read back *)

Section read_back.
Import Py Pandas Sqlite Library Rdflib.

Lemma select_all_limit_run (name : string) (n : nat) (e : env) (t : table) :
  is_open (con e) = true → view (con e) !! name = Some t →
  select_all_limit name n e = (inr (take n (trows t)), e).
Proof.
  intros Hopen Hview. unfold select_all_limit, bind, get, ret.
  by rewrite Hopen, Hview.
Qed.





End read_back.

(** ** Missing and empty values *)

Section missing_values.
Import Py Pandas Sqlite Library Relational Rdflib.

Lemma to_sql_run (name : string) (df : DataFrame) (e : env) :
  is_open (con e) = true →
  (to_sql name df e).1 = inr ()
  ∧ db_file (to_sql name df e).2 !! name
    = Some {| tcolumns := (λ c, mkColumn c false false) <$> columns df;
              trows := (λ ir : nat * Series,
                          (λ c, bind_param (default NaN (series_lookup c ir.2)))
                          <$> columns df) <$> iterrows df |}.
Proof.
  intros Hopen. unfold to_sql, bind, get, put. rewrite Hopen.
  cbn [negb fst snd db_file]. split; [done|]. apply lookup_insert_eq.
Qed.

(** No statement with the issue predicate is about a publication that is not
    a journal article. *)
Lemma no_issue_outside_articles (base : string) (venues publications : DataFrame)
    (ir : nat * Series) (o : term) :
  Forall (λ ir, is_Some (venue_statements base ir)) (iterrows venues) →
  Forall (λ ir, is_Some (publication_statements base
                           (venue_index base (iterrows venues) ∅) ir))
         (iterrows publications) →
  NoDup (iterrows publications).*1 →
  ir ∈ iterrows publications →
  series_lookup "type" ir.2 ≠ Some (Str "journal article") →
  (resource base "publication-" ir.1, issue, o)
  ∉ my_graph (build_graph base venues publications initial).2.
Proof.
  intros Hv Hp Hnd Hir Hty.
  destruct (build_graph_run base venues publications Hv Hp) as (g & -> & Hg).
  cbn [snd my_graph]. intros Hin.
  apply Hg in Hin as [(vir & stmts & _ & Hs & Ht)|(ir' & stmts & Hir' & Hs & Ht)].
  - destruct (venue_statements_spec base vir stmts Hs)
      as (_ & _ & id_ & type_ & name_ & _ & _ & _ & ->).
    unfold issue, RDF_type, name, identifier in Ht. set_solver.
  - destruct (publication_statements_spec base _ ir' stmts Hs)
      as (Hsubj & type_ & title_ & doi_ & year_ & venue_ & v & Hty' & _ & _
          & _ & _ & _ & _ & Hother).
    pose proof (Hsubj _ Ht) as Heq. cbn [fst] in Heq.
    apply resource_inj in Heq.
    assert (ir' = ir) as -> by (by apply (index_label_unique (iterrows publications))).
    destruct Hother as [_ ->]; [congruence|].
    unfold issue, RDF_type, name, identifier, publicationYear,
      publicationVenue in Ht.
    set_solver.
Qed.

(** C2, as the code has it.  In relational mode a value is written as it is:
    the library exercise stores a missing type or publisher as NULL in the
    row of its record, and [to_sql] stores every cell of the frame, an empty
    string as an empty string.  In graph mode a publication that is not a
    journal article has no statement with the issue predicate. *)
Theorem absent_values_by_destination
    (publishers_df bibliographic_df : DataFrame) (e : env)
    (table_name : string) (df : DataFrame) (e' : env)
    (base : string) (venues publications : DataFrame) :
  ((create_database publishers_df bibliographic_df e).1 = inr () →
   ∃ t, db_file (create_database publishers_df bibliographic_df e).2
          !! "BibliographicResource" = Some t
     ∧ trows t = stored ["id"; "title"; "type"; "publisher"; "unique_id"]
                 <$> (iterrows bibliographic_df).*2
     ∧ ∀ row, row ∈ (iterrows bibliographic_df).*2 →
         (series_lookup "type" row = Some NaN →
          stored ["id"; "title"; "type"; "publisher"; "unique_id"] row !! 2
          = Some NULL)
         ∧ (series_lookup "publisher" row = Some NaN →
            stored ["id"; "title"; "type"; "publisher"; "unique_id"] row !! 3
            = Some NULL))
  ∧ (is_open (con e') = true →
     (to_sql table_name df e').1 = inr ()
     ∧ ∃ t, db_file (to_sql table_name df e').2 !! table_name = Some t
         ∧ trows t
           = (λ ir : nat * Series,
                (λ c, bind_param (default NaN (series_lookup c ir.2)))
                <$> columns df) <$> iterrows df
         ∧ ∀ i j ir c,
             iterrows df !! i = Some ir → columns df !! j = Some c →
             series_lookup c ir.2 = Some (Str "") →
             trows t !! i ≫= (.!! j) = Some (TEXT ""))
  ∧ (Forall (λ ir, is_Some (venue_statements base ir)) (iterrows venues) →
     Forall (λ ir, is_Some (publication_statements base
                              (venue_index base (iterrows venues) ∅) ir))
            (iterrows publications) →
     NoDup (iterrows publications).*1 →
     ∀ ir o, ir ∈ iterrows publications →
       series_lookup "type" ir.2 ≠ Some (Str "journal article") →
       (resource base "publication-" ir.1, issue, o)
       ∉ my_graph (build_graph base venues publications initial).2).
Proof.
  split_and!.
  - intros Hrun.
    destruct (create_database_run publishers_df bibliographic_df e)
      as [(_ & -> & _)|(x & Hx & _)]; [|congruence].
    eexists. cbn [snd db_file]. split_and!.
    + unfold filled_tables. apply lookup_insert_eq.
    + done.
    + intros row _. unfold stored. simpl. split; intros ->; reflexivity.
  - intros Hopen. destruct (to_sql_run table_name df e' Hopen) as [Hok Ht].
    split; [done|]. eexists. split; [exact Ht|]. split; [done|].
    intros i j ir c Hi Hj Hcell. cbn [trows].
    rewrite list_lookup_fmap, Hi. cbn [fmap option_fmap option_map mbind option_bind].
    rewrite list_lookup_fmap, Hj. cbn [fmap option_fmap option_map].
    by rewrite Hcell.
  - intros Hv Hp Hnd ir o Hir Hty.
    by apply no_issue_outside_articles.
Qed.

(** C2, as the spec has it, fails in relational mode: the record without a
    type and a publisher is stored with two NULL fields, and notebook 04
    stores the empty issue of an article as an empty string. *)
Lemma absent_value_is_written :
  (create_database (Samples.with_unique_id "publisher-" Samples.two_publishers)
                   (Samples.with_unique_id "biblio-" Samples.three_resources)
                   Samples.before).1 = inr ()
  ∧ trows <$> db_file (create_database
                         (Samples.with_unique_id "publisher-"
                            Samples.two_publishers)
                         (Samples.with_unique_id "biblio-"
                            Samples.three_resources)
                         Samples.before).2 !! "BibliographicResource"
    = Some [[TEXT "doi:10.1/a"; TEXT "A dataset"; TEXT "dataset";
             TEXT "crossref:15"; TEXT "biblio-0"];
            [TEXT "doi:10.1/b"; TEXT "A book"; NULL; NULL; TEXT "biblio-1"];
            [TEXT "doi:10.1/c"; TEXT "A report"; TEXT "report";
             TEXT "crossref:99"; TEXT "biblio-2"]]
  ∧ (notebook Samples.venues Samples.article_without_issue Samples.before).1
    = inr ()
  ∧ trows <$> db_file (notebook Samples.venues Samples.article_without_issue
                                Samples.before).2 !! "JournalArticle"
    = Some [[TEXT "publication-0"; TEXT "10.1002/cfg.304"; INTEGER 2003;
             TEXT "Development of Computational Tools"; TEXT ""; TEXT "4";
             TEXT "venue-0"]].
Proof. split_and!; vm_compute; reflexivity. Qed.

Lemma absent_values_by_destination_witness :
  (∃ t, db_file (create_database
                   (Samples.with_unique_id "publisher-" Samples.two_publishers)
                   (Samples.with_unique_id "biblio-" Samples.three_resources)
                   Samples.before).2 !! "BibliographicResource" = Some t
     ∧ trows t = stored ["id"; "title"; "type"; "publisher"; "unique_id"]
                 <$> (iterrows (Samples.with_unique_id "biblio-"
                                  Samples.three_resources)).*2)
  ∧ (to_sql "Journal" Samples.venues
            {| db_file := ∅;
               con := {| is_open := true; in_transaction := false;
                         view := ∅ |} |}).1 = inr ()
  ∧ (resource base_url "publication-" 2, issue, Literal "" None)
    ∉ my_graph (build_graph base_url Samples.venues Samples.publications
                            initial).2.
Proof.
  destruct (absent_values_by_destination
              (Samples.with_unique_id "publisher-" Samples.two_publishers)
              (Samples.with_unique_id "biblio-" Samples.three_resources)
              Samples.before
              "Journal" Samples.venues
              {| db_file := ∅;
                 con := {| is_open := true; in_transaction := false;
                           view := ∅ |} |}
              base_url Samples.venues Samples.publications)
    as (Hdb & Hsql & Hgraph).
  split_and!.
  - destruct Hdb as (t & Ht & Hrows & _); [vm_compute; reflexivity|].
    by exists t.
  - by apply Hsql.
  - apply (Hgraph ltac:(compute_done) ltac:(compute_done) ltac:(compute_done)
             (2, [("doi", Str "10.1002/9780470291092.ch20");
                  ("title", Str "Mechanisms of Toughening");
                  ("publication year", Int 1981);
                  ("publication venue", Str "9780470291092");
                  ("type", Str "book chapter");
                  ("issue", Str "");
                  ("volume", Str "")])).
    + compute_done.
    + compute_done.
Defined.

(** What the claim leaves aside: in graph mode the issue of a journal article
    is stated even when its cell is empty, although the notebook says that an
    empty cell should give no statement. *)
Example empty_issue_of_article_is_stated :
  (build_graph base_url Samples.one_journal Samples.article_without_issue
               initial).1 = inr ()
  ∧ elements (filter (λ t, t.1.2 = issue)
                (my_graph (build_graph base_url Samples.one_journal
                             Samples.article_without_issue initial).2))
    = [(resource base_url "publication-" 0, issue, Literal "" None)].
Proof. split; vm_compute; reflexivity. Qed.

(** The connection of notebook 04 is still open after the [with] block. *)
Example with_block_leaves_connection_open :
  (notebook Samples.venues Samples.publications Samples.before).1 = inr ()
  ∧ is_open (con (notebook Samples.venues Samples.publications
                           Samples.before).2) = true.
Proof. split; vm_compute; reflexivity. Qed.

End missing_values.

(** ** The identifier theorems on the frames of the notebooks *)

Section identifier_instances.
Import Py Pandas.

Lemma AssignIdentifiers_spec_witness :
  ∃ df', insert_internal_id "venueId" ("venue" +:+ "-") Samples.venues = inr df'
    ∧ column_values "venueId" df'
      = (λ i : nat, Some (Str ("venue" +:+ "-" +:+ pretty i)))
        <$> seq 0 (len Samples.venues)
    ∧ NoDup (column_values "venueId" df')
    ∧ (iterrows df').*1 = (iterrows Samples.venues).*1.
Proof.
  destruct (AssignIdentifiers_spec "venue" Samples.venues) as [_ Hloop].
  apply (Hloop "venueId"); [reflexivity|compute_done].
Defined.

Lemma AssignIdentifiers_stable_witness :
  ∃ df1' df2',
    add_unique_id "biblio-" Samples.three_resources = inr df1'
    ∧ add_unique_id "biblio-" Samples.venues_3 = inr df2'
    ∧ column_values "unique_id" df1' = column_values "unique_id" df2'
    ∧ add_unique_id "biblio-" df1' = inr df1'.
Proof.
  apply (AssignIdentifiers_stable "biblio-" Samples.three_resources
           Samples.venues_3).
  reflexivity.
Defined.

End identifier_instances.

(** ** More on the class [Venue] *)

Section venue_more.
Import Classes.

Lemma Venue_init_ids (identifiers : list string) (name : string) :
  self_id (Venue_init identifiers name) = list_to_set identifiers.
Proof.
  unfold Venue_init; simpl.
  assert (∀ acc : gset string,
    foldl (λ s identifier, {[identifier]} ∪ s) acc identifiers
    = list_to_set identifiers ∪ acc) as H.
  { induction identifiers as [|x l IH]; intros acc; simpl.
    - set_solver.
    - rewrite IH. set_solver. }
  rewrite H. set_solver.
Qed.

(** X1. A venue built from a list of identifiers lists them back sorted and
    without repetition, and keeps its name. *)
Theorem Venue_init_getIds (identifiers : list string) (name : string) :
  StronglySorted String.le (getIds (Venue_init identifiers name)).1
  ∧ NoDup (getIds (Venue_init identifiers name)).1
  ∧ (∀ s, s ∈ (getIds (Venue_init identifiers name)).1 ↔ s ∈ identifiers)
  ∧ (length (getIds (Venue_init identifiers name)).1 ≤ length identifiers)%nat
  ∧ (getName (Venue_init identifiers name)).1 = name.
Proof.
  assert (∀ s, s ∈ (getIds (Venue_init identifiers name)).1 ↔ s ∈ identifiers)
    as Hin.
  { intros s. rewrite getIds_perm, elem_of_elements, Venue_init_ids.
    apply elem_of_list_to_set. }
  assert (NoDup (getIds (Venue_init identifiers name)).1) as Hnd.
  { rewrite getIds_perm. apply NoDup_elements. }
  split_and!; [|done|done| |done].
  - unfold getIds; simpl. apply StronglySorted_merge_sort; apply _.
  - apply submseteq_length, NoDup_submseteq; [done|]. intros s. apply Hin.
Qed.

(** X2. Adding an identifier and removing it again (or the converse) restores
    the venue; a second [addId] or [removeId] of the same identifier returns
    [False] and changes nothing. *)
Theorem addId_removeId_round_trip (v : Venue) (s : string) :
  (s ∉ self_id v → removeId s (addId s v).2 = (true, v))
  ∧ (s ∈ self_id v → addId s (removeId s v).2 = (true, v))
  ∧ addId s (addId s v).2 = (false, (addId s v).2)
  ∧ removeId s (removeId s v).2 = (false, (removeId s v).2).
Proof.
  destruct v as [ids name]. unfold addId, removeId; simpl.
  split_and!.
  - intros Hs. destruct (decide (s ∉ ids)) as [_|Hn]; [|done]. simpl.
    destruct (decide (s ∈ {[s]} ∪ ids)) as [_|Hn]; [|set_solver].
    do 2 f_equal. set_solver.
  - intros Hs. destruct (decide (s ∈ ids)) as [_|Hn]; [|done]. simpl.
    destruct (decide (s ∉ ids ∖ {[s]})) as [_|Hn]; [|set_solver].
    do 2 f_equal.
    apply set_eq. intros x. rewrite elem_of_union, elem_of_singleton,
      elem_of_difference, elem_of_singleton.
    destruct (decide (x = s)) as [->|]; naive_solver.
  - destruct (decide (s ∉ ids)) as [Hs|Hs]; simpl.
    + destruct (decide (s ∉ {[s]} ∪ ids)) as [Hn|_]; [set_solver|done].
    + by destruct (decide (s ∉ ids)).
  - destruct (decide (s ∈ ids)) as [Hs|Hs]; simpl.
    + destruct (decide (s ∈ ids ∖ {[s]})) as [Hn|_]; [set_solver|done].
    + by destruct (decide (s ∈ ids)).
Qed.

Lemma addId_removeId_round_trip_witness :
  removeId "1367-5931" (addId "1367-5931" (Venue_init ["1531-6912"] "CFG")).2
  = (true, Venue_init ["1531-6912"] "CFG")
  ∧ addId "1531-6912" (removeId "1531-6912" (Venue_init ["1531-6912"] "CFG")).2
    = (true, Venue_init ["1531-6912"] "CFG").
Proof.
  destruct (addId_removeId_round_trip (Venue_init ["1531-6912"] "CFG")
              "1367-5931") as (Hadd & _).
  destruct (addId_removeId_round_trip (Venue_init ["1531-6912"] "CFG")
              "1531-6912") as (_ & Hrem & _).
  split; [apply Hadd|apply Hrem]; compute_done.
Defined.

(** X3. [getIds] follows [addId] and [removeId]: the added identifier is listed
    with the former ones, the removed one is not listed any more, and the
    other identifiers stay; the name is never touched. *)
Theorem getIds_after_update (v : Venue) (s : string) :
  (∀ x, x ∈ (getIds (addId s v).2).1 ↔ x = s ∨ x ∈ (getIds v).1)
  ∧ (∀ x, x ∈ (getIds (removeId s v).2).1 ↔ x ≠ s ∧ x ∈ (getIds v).1)
  ∧ (getName (addId s v).2).1 = (getName v).1
  ∧ (getName (removeId s v).2).1 = (getName v).1
  ∧ length (getIds (addId s v).2).1
    = (if decide (s ∈ self_id v) then length (getIds v).1
       else S (length (getIds v).1)).
Proof.
  split_and!.
  - intros x. rewrite !getIds_perm, !elem_of_elements.
    unfold addId. case_decide; simpl; set_solver.
  - intros x. rewrite !getIds_perm, !elem_of_elements.
    unfold removeId. case_decide; simpl; set_solver.
  - unfold addId. by case_decide.
  - unfold removeId. by case_decide.
  - unfold addId.
    destruct (decide (s ∈ self_id v)) as [Hin|Hin];
      destruct (decide (s ∉ self_id v)) as [Hn|Hn]; cbn [snd];
      rewrite ?getIds_perm; cbn [self_id]; try done.
    by rewrite elements_union_singleton.
Qed.

End venue_more.

(** ** More on the graph *)

Section graph_more.
Import Py Pandas Rdflib.

Lemma for_each_app {S A} (l1 l2 : list A) (body : A → M S unit) (s : S) :
  for_each (l1 ++ l2) body s
  = match for_each l1 body s with
    | (inr _, s') => for_each l2 body s'
    | (inl x, s') => (inl x, s')
    end.
Proof.
  revert s. induction l1 as [|a l1 IH]; intros s; [done|].
  cbn [app for_each]. unfold bind.
  destruct (body a s) as [[x|[]] s1]; [done|]. apply IH.
Qed.

Lemma venue_index_app (base : string) (l1 l2 : list (nat * Series))
    (d : gmap value term) :
  venue_index base (l1 ++ l2) d = venue_index base l2 (venue_index base l1 d).
Proof. unfold venue_index. apply foldl_app. Qed.

Lemma venue_index_other (base : string) (rows : list (nat * Series))
    (d : gmap value term) (k : value) :
  Forall (λ ir, series_lookup "id" ir.2 ≠ Some k) rows →
  venue_index base rows d !! k = d !! k.
Proof.
  revert d. induction rows as [|ir rows IH]; intros d Hrows; [done|].
  apply Forall_cons in Hrows as [Hir Hrows].
  change (venue_index base (ir :: rows) d)
    with (venue_index base rows
            (match venue_entry base ir with
             | Some (k', v) => <[k' := v]> d
             | None => d
             end)).
  rewrite IH by done. unfold venue_entry.
  destruct (series_lookup "id" ir.2) as [id_|]; cbn [mbind option_bind];
    [|done].
  apply lookup_insert_ne. congruence.
Qed.

Lemma venue_index_last (base : string) (pre post : list (nat * Series))
    (ir : nat * Series) (d : gmap value term) (k : value) :
  series_lookup "id" ir.2 = Some k →
  Forall (λ ir', series_lookup "id" ir'.2 ≠ Some k) post →
  venue_index base (pre ++ ir :: post) d !! k
  = Some (resource base "venue-" ir.1).
Proof.
  intros Hid Hpost. rewrite venue_index_app.
  change (ir :: post) with ([ir] ++ post). rewrite venue_index_app.
  rewrite venue_index_other by done.
  cbn [venue_index foldl]. unfold venue_entry. rewrite Hid.
  cbn [mbind option_bind]. apply lookup_insert_eq.
Qed.

Lemma last_with_id (k : value) (rows : list (nat * Series)) :
  Forall (λ ir, series_lookup "id" ir.2 ≠ Some k) rows
  ∨ ∃ pre ir post, rows = pre ++ ir :: post
      ∧ series_lookup "id" ir.2 = Some k
      ∧ Forall (λ ir', series_lookup "id" ir'.2 ≠ Some k) post.
Proof.
  induction rows as [|a rows IH]; [by left|].
  destruct IH as [Hnone|(pre & ir & post & -> & Hid & Hpost)].
  - destruct (decide (series_lookup "id" a.2 = Some k)) as [Ha|Ha].
    + right. by exists [], a, rows.
    + left. by apply Forall_cons.
  - right. by exists (a :: pre), ir, post.
Qed.

Lemma venue_index_again (base : string) (rows : list (nat * Series))
    (d : gmap value term) :
  venue_index base rows (venue_index base rows d) = venue_index base rows d.
Proof.
  apply map_eq. intros k.
  destruct (last_with_id k rows) as [Hnone|(pre & ir & post & -> & Hid & Hpost)].
  - by rewrite venue_index_other.
  - by rewrite !(venue_index_last base pre post ir _ k).
Qed.

(** X4. A publication is linked to the last venue row that carries its venue
    id: in the dictionary of venues a later row replaces an earlier one with
    the same id. *)
Theorem publication_linked_to_last_venue (base : string)
    (venues publications : DataFrame) (pre post : list (nat * Series))
    (vir pir : nat * Series) (k : value) :
  Forall (λ ir, is_Some (venue_statements base ir)) (iterrows venues) →
  Forall (λ ir, is_Some (publication_statements base
                           (venue_index base (iterrows venues) ∅) ir))
         (iterrows publications) →
  iterrows venues = pre ++ vir :: post →
  series_lookup "id" vir.2 = Some k →
  Forall (λ ir, series_lookup "id" ir.2 ≠ Some k) post →
  pir ∈ iterrows publications →
  series_lookup "publication venue" pir.2 = Some k →
  venue_internal_id (build_graph base venues publications initial).2 !! k
  = Some (resource base "venue-" vir.1)
  ∧ (resource base "publication-" pir.1, publicationVenue,
     resource base "venue-" vir.1)
    ∈ my_graph (build_graph base venues publications initial).2.
Proof.
  intros Hv Hp Hrows Hid Hpost Hpir Hvenue.
  destruct (build_graph_run base venues publications Hv Hp) as (g & -> & Hg).
  cbn [snd my_graph venue_internal_id].
  assert (venue_index base (iterrows venues) ∅ !! k
          = Some (resource base "venue-" vir.1)) as Hk.
  { rewrite Hrows. by apply venue_index_last. }
  split; [done|].
  destruct (proj1 (Forall_forall _ _) Hp pir Hpir) as [stmts Hs].
  apply Hg. right. exists pir, stmts. split_and!; [done..|].
  destruct (publication_statements_spec base _ pir stmts Hs)
    as (_ & type_ & title_ & doi_ & year_ & venue_ & v & Hty & _ & _ & _
        & Hvenue' & Hd & Harticle & Hother).
  assert (venue_ = k) as -> by congruence.
  assert (v = resource base "venue-" vir.1) as -> by congruence.
  destruct (decide (type_ = Str "journal article")) as [Hart|Hart].
  - destruct (Harticle Hart) as (_ & issue_ & volume_ & _ & _ & ->). set_solver.
  - destruct (Hother Hart) as (_ & ->). set_solver.
Qed.

Lemma publication_linked_to_last_venue_witness :
  (resource base_url "publication-" 0, publicationVenue,
   resource base_url "venue-" 1)
  ∈ my_graph (build_graph base_url Tables.same_id_venues
                Samples.article_without_issue initial).2.
Proof.
  refine (proj2 (publication_linked_to_last_venue base_url
            Tables.same_id_venues Samples.article_without_issue
            [(0, [("id", Str "1531-6912");
                  ("name", Str "Comparative and Functional Genomics");
                  ("type", Str "journal")])]
            []
            (1, [("id", Str "1531-6912");
                 ("name", Str "International Journal of Genomics");
                 ("type", Str "journal")])
            (0, [("doi", Str "10.1002/cfg.304");
                 ("title", Str "Development of Computational Tools");
                 ("publication year", Int 2003);
                 ("publication venue", Str "1531-6912");
                 ("type", Str "journal article");
                 ("issue", Str "");
                 ("volume", Str "4")])
            (Str "1531-6912") _ _ _ _ _ _ _)).
  - compute_done.
  - compute_done.
  - vm_compute; reflexivity.
  - reflexivity.
  - constructor.
  - compute_done.
  - reflexivity.
Defined.

Lemma build_graph_from (base : string) (venues publications : DataFrame)
    (st : state) :
  match union_all (venue_statements base) (iterrows venues),
        union_all (publication_statements base
                     (venue_index base (iterrows venues) (venue_internal_id st)))
                  (iterrows publications) with
  | Some vs, Some ps =>
      build_graph base venues publications st
      = (inr (), {| my_graph := ps ∪ (vs ∪ my_graph st);
                    venue_internal_id :=
                      venue_index base (iterrows venues) (venue_internal_id st) |})
  | _, _ => ∃ x, (build_graph base venues publications st).1 = inl x
  end.
Proof.
  unfold build_graph, bind.
  pose proof (venue_loop_run base (iterrows venues) st) as Hv.
  destruct (union_all (venue_statements base) (iterrows venues)) as [vs|].
  - rewrite Hv.
    pose proof (publication_loop_run base (iterrows publications)
      {| my_graph := vs ∪ my_graph st;
         venue_internal_id :=
           venue_index base (iterrows venues) (venue_internal_id st) |}) as Hp.
    cbn [venue_internal_id my_graph] in Hp.
    destruct (union_all _ (iterrows publications)) as [ps|]; [done|].
    destruct Hp as [x Hx]. exists x. by destruct (for_each _ _ _) as [[] ?].
  - destruct Hv as [x Hx]. exists x.
    destruct (for_each _ _ st) as [[] ?]; simpl in *; congruence.
Qed.

(** X5. Running the two loops a second time, on the graph and the dictionary
    the first run left, raises nothing and changes neither: a graph is a set
    of statements. *)
Theorem build_graph_again (base : string) (venues publications : DataFrame)
    (st : state) :
  build_graph base venues publications initial = (inr (), st) →
  build_graph base venues publications st = (inr (), st).
Proof.
  intros Hrun.
  pose proof (build_graph_from base venues publications initial) as H1.
  pose proof (build_graph_from base venues publications st) as H2.
  destruct (union_all (venue_statements base) (iterrows venues)) as [vs|];
    [|destruct H1 as [x Hx]; rewrite Hrun in Hx; done].
  cbn [initial venue_internal_id my_graph] in H1.
  destruct (union_all (publication_statements base
              (venue_index base (iterrows venues) ∅)) (iterrows publications))
    as [ps|] eqn:Hps;
    [|destruct H1 as [x Hx]; rewrite Hrun in Hx; done].
  rewrite Hrun in H1. injection H1 as ->.
  cbn [venue_internal_id my_graph] in H2.
  rewrite venue_index_again, Hps in H2. rewrite H2.
  do 2 f_equal. set_solver.
Qed.

Lemma build_graph_again_witness :
  build_graph base_url Samples.venues Samples.publications
    (build_graph base_url Samples.venues Samples.publications initial).2
  = (inr (),
     (build_graph base_url Samples.venues Samples.publications initial).2).
Proof.
  assert ((build_graph base_url Samples.venues Samples.publications initial).1
          = inr ()) as Hrun by (vm_compute; reflexivity).
  apply build_graph_again.
  destruct (build_graph base_url Samples.venues Samples.publications initial)
    as [r st].
  cbn [fst snd] in *. by rewrite Hrun.
Defined.

Lemma union_all_elem (f : nat * Series → option (gset triple))
    (rows : list (nat * Series)) (all : gset triple) :
  union_all f rows = Some all →
  ∀ t, t ∈ all ↔ ∃ ir stmts, ir ∈ rows ∧ f ir = Some stmts ∧ t ∈ stmts.
Proof.
  revert all. induction rows as [|ir rows IH]; intros all.
  - intros [= <-] t. split; [set_solver|].
    intros (ir & stmts & Hir & _). by apply elem_of_nil in Hir.
  - cbn [union_all foldr]. fold (union_all f rows).
    destruct (f ir) as [stmts|] eqn:Hf; [|done].
    destruct (union_all f rows) as [rest|]; [|done].
    cbn [mbind option_bind]. intros [= <-] t.
    rewrite elem_of_union, (IH rest eq_refl). split.
    + intros [Ht|(ir' & stmts' & Hir' & Hf' & Ht)].
      * exists ir, stmts. split_and!; [left|done..].
      * exists ir', stmts'. split_and!; [by right|done..].
    + intros (ir' & stmts' & Hir' & Hf' & Ht).
      apply elem_of_cons in Hir' as [->|Hir'].
      * left. by simplify_eq.
      * right. by exists ir', stmts'.
Qed.

Lemma union_all_size (f : nat * Series → option (gset triple))
    (subject : nat → term) (n : nat * Series → nat)
    (rows : list (nat * Series)) (all : gset triple) :
  (∀ i j, subject i = subject j → i = j) →
  (∀ ir stmts, f ir = Some stmts →
     size stmts = n ir ∧ ∀ t, t ∈ stmts → t.1.1 = subject ir.1) →
  NoDup rows.*1 →
  union_all f rows = Some all →
  size all = sum_list (n <$> rows).
Proof.
  intros Hinj Hf. revert all.
  induction rows as [|ir rows IH]; intros all Hnd.
  - by intros [= <-].
  - cbn [union_all foldr]. fold (union_all f rows).
    destruct (f ir) as [stmts|] eqn:Hir; [|done].
    destruct (union_all f rows) as [rest|] eqn:Hrest; [|done].
    cbn [mbind option_bind]. intros [= <-].
    csimpl in Hnd. apply NoDup_cons in Hnd as [Hnew Hnd].
    destruct (Hf ir stmts Hir) as [Hsize Hsubj].
    rewrite size_union.
    + csimpl. by rewrite Hsize, (IH rest Hnd eq_refl).
    + intros t Ht Ht'.
      apply (union_all_elem f rows rest Hrest) in Ht'
        as (ir' & stmts' & Hir' & Hf' & Ht').
      destruct (Hf ir' stmts' Hf') as [_ Hsubj'].
      apply Hnew. rewrite (Hinj ir.1 ir'.1).
      * by apply list_elem_of_fmap_2.
      * by rewrite <- (Hsubj t Ht), <- (Hsubj' t Ht').
Qed.

(** X6. On frames whose index labels are pairwise distinct, as [read_csv]
    gives them, the graph has one statement per mapped cell: three per venue
    and, per publication, as many as the row has mapped attributes. *)
Theorem graph_size (base : string) (venues publications : DataFrame) :
  Forall (λ ir, is_Some (venue_statements base ir)) (iterrows venues) →
  Forall (λ ir, is_Some (publication_statements base
                           (venue_index base (iterrows venues) ∅) ir))
         (iterrows publications) →
  NoDup (iterrows venues).*1 →
  NoDup (iterrows publications).*1 →
  size (my_graph (build_graph base venues publications initial).2)
  = (length venue_labels * len venues
     + sum_list ((λ ir, length (publication_labels ir.2))
                 <$> iterrows publications))%nat.
Proof.
  intros Hv Hp Hndv Hndp.
  destruct (union_all_Some _ _ Hv) as (vs & Hvs & Hvin).
  destruct (union_all_Some _ _ Hp) as (ps & Hps & Hpin).
  pose proof (build_graph_from base venues publications initial) as Hrun.
  cbn [initial venue_internal_id my_graph] in Hrun.
  rewrite Hvs, Hps in Hrun. rewrite Hrun. cbn [snd my_graph].
  rewrite (union_empty_r_L vs).
  rewrite size_union.
  - rewrite (union_all_size
               (publication_statements base
                  (venue_index base (iterrows venues) ∅))
               (resource base "publication-")
               (λ ir, length (publication_labels ir.2))
               (iterrows publications) ps
               (resource_inj base "publication-")); [|  |done..].
    + rewrite (union_all_size (venue_statements base)
                 (resource base "venue-")
                 (λ _, length venue_labels) (iterrows venues) vs
                 (resource_inj base "venue-")); [| |done..].
      * unfold len. rewrite Nat.add_comm. f_equal.
        change (length venue_labels) with 3%nat.
        generalize (iterrows venues). intros l.
        induction l as [|a l IH]; csimpl; lia.
      * intros ir stmts Hs.
        destruct (venue_statements_spec base ir stmts Hs) as (? & ? & _).
        done.
    + intros ir stmts Hs.
      destruct (publication_statements_spec base _ ir stmts Hs)
        as (Hsubj & type_ & title_ & doi_ & year_ & venue_ & v & Hty & _ & _
            & _ & _ & _ & Harticle & Hother).
      split; [|done]. unfold publication_labels. rewrite Hty.
      destruct (decide (type_ = Str "journal article")) as [->|Hne].
      * rewrite decide_True by done. by destruct (Harticle eq_refl) as [-> _].
      * rewrite decide_False by congruence. by destruct (Hother Hne) as [-> _].
  - intros t Hps' Hvs'.
    apply Hpin in Hps' as (ir & stmts & _ & Hs & Ht).
    apply Hvin in Hvs' as (ir' & stmts' & _ & Hs' & Ht').
    destruct (publication_statements_spec base _ ir stmts Hs) as [Hsubj _].
    destruct (venue_statements_spec base ir' stmts' Hs') as (_ & Hsubj' & _).
    specialize (Hsubj t Ht). specialize (Hsubj' t Ht').
    rewrite Hsubj in Hsubj'. unfold resource in Hsubj'.
    injection Hsubj' as Heq. apply String.app_inj in Heq. discriminate.
Qed.

Lemma graph_size_witness :
  size (my_graph (build_graph base_url Samples.venues Samples.publications
                    initial).2)
  = (length venue_labels * len Samples.venues
     + sum_list ((λ ir, length (publication_labels ir.2))
                 <$> iterrows Samples.publications))%nat.
Proof.
  apply graph_size; compute_done.
Defined.

Lemma add_publication_unknown (base : string) (ir : nat * Series)
    (st : state) (k : value) :
  (∀ label, label ∈ publication_labels ir.2 →
     is_Some (series_lookup label ir.2)) →
  series_lookup "publication venue" ir.2 = Some k →
  venue_internal_id st !! k = None →
  ∃ g', add_publication base ir st
        = (inl (KeyError (str k)),
           {| my_graph := g'; venue_internal_id := venue_internal_id st |})
    ∧ ∀ t, t ∈ g' ↔
        t ∈ my_graph st
        ∨ ∃ v stmts,
            publication_statements base (<[k := v]> (venue_internal_id st)) ir
            = Some stmts
            ∧ t ∈ stmts ∧ t.1.2 ≠ publicationVenue.
Proof.
  destruct ir as [idx row]. destruct st as [g d].
  cbn [fst snd my_graph venue_internal_id]. intros Hlab Hvenue Hd.
  destruct (Hlab "type") as [type_ Hty]; [unfold publication_labels; set_solver|].
  destruct (Hlab "title") as [title_ Hti]; [unfold publication_labels; set_solver|].
  destruct (Hlab "doi") as [doi_ Hdoi]; [unfold publication_labels; set_solver|].
  destruct (Hlab "publication year") as [year_ Hy];
    [unfold publication_labels; set_solver|].
  unfold publication_statements, add_publication, bind, lift, getitem, add,
    modify, get, raise; cbn [fst snd my_graph venue_internal_id].
  rewrite Hty. cbn [mbind option_bind].
  destruct (decide (type_ = Str "journal article")) as [->|Hne].
  - destruct (Hlab "issue") as [issue_ Hi];
      [unfold publication_labels; rewrite Hty, decide_True by done; set_solver|].
    destruct (Hlab "volume") as [volume_ Hvo];
      [unfold publication_labels; rewrite Hty, decide_True by done; set_solver|].
    rewrite Hi, Hvo, Hti, Hdoi, Hy, Hvenue.
    cbn [mbind option_bind fst snd my_graph venue_internal_id].
    rewrite Hd. eexists. split; [reflexivity|].
    intros t. split.
    + intros Ht.
      destruct (decide (t ∈ g)) as [Hg|Hg]; [by left|]. right.
      eexists (URIRef ""), _. rewrite lookup_insert_eq. cbn [mbind option_bind].
      split; [reflexivity|].
      unfold RDF_type, issue, volume, name, identifier, publicationYear,
        publicationVenue in *.
      set_unfold. naive_solver.
    + intros [Hg|(v & stmts & Hs & Ht & Hpred)]; [set_solver|].
      rewrite lookup_insert_eq in Hs. cbn [mbind option_bind] in Hs.
      injection Hs as <-. set_unfold. naive_solver.
  - rewrite Hti, Hdoi, Hy, Hvenue.
    cbn [mbind option_bind fst snd my_graph venue_internal_id].
    rewrite Hd. eexists. split; [reflexivity|].
    intros t. split.
    + intros Ht.
      destruct (decide (t ∈ g)) as [Hg|Hg]; [by left|]. right.
      eexists (URIRef ""), _. rewrite lookup_insert_eq. cbn [mbind option_bind].
      split; [reflexivity|].
      unfold RDF_type, issue, volume, name, identifier, publicationYear,
        publicationVenue in *.
      set_unfold. naive_solver.
    + intros [Hg|(v & stmts & Hs & Ht & Hpred)]; [set_solver|].
      rewrite lookup_insert_eq in Hs. cbn [mbind option_bind] in Hs.
      injection Hs as <-. set_unfold. naive_solver.
Qed.

(** X7. A publication whose venue id no venue row carries stops the script
    with [KeyError] on that id.  The graph keeps what was added before: the
    statements of the venues, of the publications above the row, and of the
    row itself but the link to its venue; nothing of the rows below. *)
Theorem unknown_venue_raises (base : string) (venues publications : DataFrame)
    (pre post : list (nat * Series)) (pir : nat * Series) (k : value) :
  let d := venue_index base (iterrows venues) ∅ in
  Forall (λ ir, is_Some (venue_statements base ir)) (iterrows venues) →
  iterrows publications = pre ++ pir :: post →
  Forall (λ ir, is_Some (publication_statements base d ir)) pre →
  (∀ label, label ∈ publication_labels pir.2 →
     is_Some (series_lookup label pir.2)) →
  series_lookup "publication venue" pir.2 = Some k →
  Forall (λ ir, series_lookup "id" ir.2 ≠ Some k) (iterrows venues) →
  (build_graph base venues publications initial).1 = inl (KeyError (str k))
  ∧ venue_internal_id (build_graph base venues publications initial).2 = d
  ∧ ∀ t, t ∈ my_graph (build_graph base venues publications initial).2 ↔
      (∃ ir stmts, ir ∈ iterrows venues
         ∧ venue_statements base ir = Some stmts ∧ t ∈ stmts)
      ∨ (∃ ir stmts, ir ∈ pre
           ∧ publication_statements base d ir = Some stmts ∧ t ∈ stmts)
      ∨ (∃ v stmts, publication_statements base (<[k := v]> d) pir = Some stmts
           ∧ t ∈ stmts ∧ t.1.2 ≠ publicationVenue).
Proof.
  intros d Hv Hrows Hpre Hlab Hvenue Hk.
  destruct (union_all_Some _ _ Hv) as (vs & Hvs & Hvin).
  destruct (union_all_Some _ _ Hpre) as (ps & Hps & Hpin).
  assert (d !! k = None) as Hd.
  { unfold d. by rewrite venue_index_other. }
  unfold build_graph, bind.
  pose proof (venue_loop_run base (iterrows venues) initial) as Hrun.
  rewrite Hvs in Hrun. rewrite Hrun. clear Hrun.
  cbn [initial my_graph venue_internal_id]. fold d.
  rewrite Hrows, for_each_app.
  pose proof (publication_loop_run base pre
    {| my_graph := vs ∪ ∅; venue_internal_id := d |}) as Hrun.
  cbn [my_graph venue_internal_id] in Hrun.
  rewrite Hps in Hrun. rewrite Hrun. clear Hrun.
  cbn [for_each]. unfold bind.
  destruct (add_publication_unknown base pir
    {| my_graph := ps ∪ (vs ∪ ∅); venue_internal_id := d |} k Hlab Hvenue Hd)
    as (g' & Hstep & Hg').
  cbn [my_graph venue_internal_id] in Hstep, Hg'.
  rewrite Hstep. cbn [fst snd my_graph venue_internal_id].
  split_and!; [done..|].
  intros t. rewrite Hg', !elem_of_union, Hvin, Hpin.
  pose proof (not_elem_of_empty (C:=gset triple) t). tauto.
Qed.

Lemma unknown_venue_raises_witness :
  (build_graph base_url Samples.one_book Samples.article_without_issue
     initial).1
  = inl (KeyError "1531-6912").
Proof.
  refine (proj1 (unknown_venue_raises base_url Samples.one_book
            Samples.article_without_issue [] []
            (0, [("doi", Str "10.1002/cfg.304");
                 ("title", Str "Development of Computational Tools");
                 ("publication year", Int 2003);
                 ("publication venue", Str "1531-6912");
                 ("type", Str "journal article");
                 ("issue", Str "");
                 ("volume", Str "4")])
            (Str "1531-6912") _ _ _ _ _ _)).
  - compute_done.
  - vm_compute; reflexivity.
  - compute_done.
  - intros label Hl. vm_compute in Hl. set_unfold.
    destruct Hl as [->|[->|[->|[->|[->|[->|[->|[]]]]]]]]; by eexists.
  - reflexivity.
  - compute_done.
Defined.

End graph_more.

(** ** More on the upload *)

Section upload_more.
Import Py Rdflib.

Lemma store_loop_bounds (endpoint : triple → bool) (l : list triple)
    (s : SPARQLUpdateStore) :
  statements s ⊆ statements (for_each l (store_add endpoint) s).2
  ∧ statements (for_each l (store_add endpoint) s).2
    ⊆ list_to_set l ∪ statements s.
Proof.
  revert s. induction l as [|t l IH]; intros s; [set_solver|].
  cbn [for_each]. unfold bind.
  destruct (store_add endpoint t s) as [[x|[]] s1] eqn:Hstep.
  - unfold store_add, bind, get, put, raise in Hstep.
    destruct (negb (store_is_open s)); [|destruct (endpoint t)];
      simplify_eq; set_solver.
  - specialize (IH s1).
    unfold store_add, bind, get, put, raise in Hstep.
    destruct (negb (store_is_open s)); [|destruct (endpoint t)];
      simplify_eq; cbn [statements] in IH; set_solver.
Qed.

(** X8. An upload never removes a statement from the store and sends only
    statements of the graph, whatever the endpoint answers; a second upload,
    to an endpoint that answers every request, then leaves in the store what
    one complete upload would have left, and the store closed. *)
Theorem upload_retry (endpoint endpoint' : triple → bool) (g : gset triple)
    (s : SPARQLUpdateStore) :
  forallb endpoint' (elements g) = true →
  statements s ⊆ statements (upload endpoint g s).2
  ∧ statements (upload endpoint g s).2 ⊆ g ∪ statements s
  ∧ upload endpoint' g (upload endpoint g s).2
    = (inr (), {| store_is_open := false; statements := g ∪ statements s |}).
Proof.
  intros Hall.
  set (s1 := {| store_is_open := true; statements := statements s |}).
  assert (upload endpoint g s
          = match for_each (elements g) (store_add endpoint) s1 with
            | (inr _, s') => store_close s'
            | (inl x, s') => (inl x, s')
            end) as Hup by reflexivity.
  destruct (store_loop_bounds endpoint (elements g) s1) as [Hlow Hhigh].
  rewrite list_to_set_elements_L in Hhigh. cbn [s1 statements] in Hlow, Hhigh.
  assert (statements s ⊆ statements (upload endpoint g s).2
          ∧ statements (upload endpoint g s).2 ⊆ g ∪ statements s)
    as [Hlow' Hhigh'].
  { rewrite Hup. by destruct (for_each _ _ s1) as [[x|[]] s2]. }
  split_and!; [done..|].
  pose proof (upload_run endpoint' g (upload endpoint g s).2) as Hrun.
  rewrite Hall in Hrun. rewrite Hrun. do 2 f_equal. set_solver.
Qed.

Lemma upload_retry_witness :
  upload (λ _, true) Samples.one_statement
    (upload (λ _, false) Samples.one_statement
       {| store_is_open := false; statements := ∅ |}).2
  = (inr (), {| store_is_open := false;
                statements := Samples.one_statement ∪ ∅ |}).
Proof.
  refine (proj2 (proj2 (upload_retry (λ _, false) (λ _, true)
            Samples.one_statement
            {| store_is_open := false; statements := ∅ |} _))).
  vm_compute; reflexivity.
Defined.

End upload_more.

Section constraints.
Import Py Pandas Sqlite Library Verification.

Lemma insert_publisher_checked (ir : nat * Series) (e : env) (t : table) :
  is_open (con e) = true → view (con e) !! "Publisher" = Some t →
  tcolumns t = Publisher_columns →
  (insert_publisher ir e).1 = inr () →
  violation "Publisher" t Publisher_columns
    (stored ["id"; "name"; "unique_id"] ir.2) = None.
Proof.
  intros Hopen Hview Hcols. unfold insert_publisher, bind, lift, getitem.
  destruct (series_lookup "id" ir.2) as [id_|] eqn:Hid; [|done].
  destruct (series_lookup "name" ir.2) as [name_|] eqn:Hname; [|done].
  destruct (series_lookup "unique_id" ir.2) as [uid_|] eqn:Huid; [|done].
  rewrite (execute_insert_run _ _ _ e t Hopen Hview). rewrite Hcols.
  assert (stored ["id"; "name"; "unique_id"] ir.2
          = text_affinity ∘ bind_param <$> [id_; name_; uid_]) as ->
    by (unfold stored; simpl; by rewrite Hid, Hname, Huid).
  cbv zeta.
  by destruct (violation _ _ _ _).
Qed.

Lemma insert_resource_checked (ir : nat * Series) (e : env) (t : table) :
  is_open (con e) = true → view (con e) !! "BibliographicResource" = Some t →
  tcolumns t = BibliographicResource_columns →
  (insert_resource ir e).1 = inr () →
  violation "BibliographicResource" t BibliographicResource_columns
    (stored ["id"; "title"; "type"; "publisher"; "unique_id"] ir.2) = None.
Proof.
  intros Hopen Hview Hcols. unfold insert_resource, bind, lift, getitem.
  destruct (series_lookup "id" ir.2) as [id_|] eqn:Hid; [|done].
  destruct (series_lookup "title" ir.2) as [title_|] eqn:Htitle; [|done].
  destruct (series_lookup "type" ir.2) as [type_|] eqn:Htype; [|done].
  destruct (series_lookup "publisher" ir.2) as [pub_|] eqn:Hpub; [|done].
  destruct (series_lookup "unique_id" ir.2) as [uid_|] eqn:Huid; [|done].
  rewrite (execute_insert_run _ _ _ e t Hopen Hview). rewrite Hcols.
  assert (stored ["id"; "title"; "type"; "publisher"; "unique_id"] ir.2
          = text_affinity ∘ bind_param <$> [id_; title_; type_; pub_; uid_]) as ->
    by (unfold stored; simpl; by rewrite Hid, Htitle, Htype, Hpub, Huid).
  cbv zeta.
  by destruct (violation _ _ _ _).
Qed.

Section checked_loop.
Variables (name : string) (schema : list column) (cols : list string).
Variable body : nat * Series → M env unit.
Hypothesis body_run : ∀ ir e t,
  is_open (con e) = true → view (con e) !! name = Some t →
  tcolumns t = schema →
  db_file (body ir e).2 = db_file e
  ∧ is_open (con (body ir e).2) = true
  ∧ ((body ir e).1 = inr () →
      Forall (λ c, is_Some (series_lookup c ir.2)) cols
      ∧ view (con (body ir e).2)
        = <[name := {| tcolumns := schema;
                       trows := trows t ++ [stored cols ir.2] |}]> (view (con e))).
Hypothesis body_checked : ∀ ir e t,
  is_open (con e) = true → view (con e) !! name = Some t →
  tcolumns t = schema →
  (body ir e).1 = inr () →
  violation name t schema (stored cols ir.2) = None.

Lemma for_each_checked (rows : list (nat * Series)) (e : env) (t : table) :
  is_open (con e) = true → view (con e) !! name = Some t →
  tcolumns t = schema →
  (for_each rows body e).1 = inr () →
  ∀ i ir, rows !! i = Some ir →
    violation name {| tcolumns := schema;
                      trows := trows t ++ (stored cols <$> (take i rows).*2) |}
              schema (stored cols ir.2) = None.
Proof.
  revert e t. induction rows as [|ir rows IH]; intros e t Hopen Hview Hcols.
  - intros _ i ir Hi. by rewrite lookup_nil in Hi.
  - cbn [for_each]. unfold bind.
    destruct (body_run ir e t Hopen Hview Hcols) as (Hfile & Hopen' & Hok).
    pose proof (body_checked ir e t Hopen Hview Hcols) as Hchk.
    destruct (body ir e) as [[x|[]] e1]; cbn [fst snd] in *; [done|].
    destruct (Hok eq_refl) as [_ Hview1]. clear Hok.
    intros Hrun [|i] ir' Hi.
    + injection Hi as <-. csimpl. rewrite app_nil_r.
      specialize (Hchk eq_refl). destruct t; simpl in *. by subst.
    + cbn [lookup list_lookup] in Hi.
      specialize (IH e1 {| tcolumns := schema;
                           trows := trows t ++ [stored cols ir.2] |}).
      cbn [tcolumns trows] in IH.
      csimpl. rewrite cons_middle, app_assoc.
      apply IH; [done| |done|done|done].
      rewrite Hview1. apply lookup_insert_eq.
Qed.

End checked_loop.

Lemma create_database_checked (publishers_df bibliographic_df : DataFrame)
    (e : env) :
  (create_database publishers_df bibliographic_df e).1 = inr () →
  (∀ i ir, iterrows publishers_df !! i = Some ir →
     violation "Publisher"
       {| tcolumns := Publisher_columns;
          trows := stored ["id"; "name"; "unique_id"]
                   <$> (take i (iterrows publishers_df)).*2 |}
       Publisher_columns (stored ["id"; "name"; "unique_id"] ir.2) = None)
  ∧ (∀ i ir, iterrows bibliographic_df !! i = Some ir →
       violation "BibliographicResource"
         {| tcolumns := BibliographicResource_columns;
            trows := stored ["id"; "title"; "type"; "publisher"; "unique_id"]
                     <$> (take i (iterrows bibliographic_df)).*2 |}
         BibliographicResource_columns
         (stored ["id"; "title"; "type"; "publisher"; "unique_id"] ir.2) = None).
Proof.
  set (e1 := {| db_file := empty_tables;
                con := {| is_open := true; in_transaction := false;
                          view := empty_tables |} |}).
  assert (create_database publishers_df bibliographic_df e
          = (for_each (iterrows publishers_df) insert_publisher ;;;
             for_each (iterrows bibliographic_df) insert_resource ;;;
             commit ;;; close) e1) as -> by reflexivity.
  unfold bind at 1.
  destruct (for_each_inserts "Publisher" Publisher_columns
              ["id"; "name"; "unique_id"] insert_publisher insert_publisher_run
              (iterrows publishers_df) e1
              {| tcolumns := Publisher_columns; trows := [] |})
    as (Hfile & Hopen & Hok); [done..|].
  pose proof (for_each_checked "Publisher" Publisher_columns
              ["id"; "name"; "unique_id"] insert_publisher insert_publisher_run
              insert_publisher_checked
              (iterrows publishers_df) e1
              {| tcolumns := Publisher_columns; trows := [] |}
              eq_refl eq_refl eq_refl) as Hchk.
  destruct (for_each (iterrows publishers_df) insert_publisher e1)
    as [[x|[]] e2]; cbn [fst snd] in *; [done|].
  destruct (Hok eq_refl) as [_ Hview]. clear Hok.
  unfold bind at 1.
  pose proof (for_each_checked "BibliographicResource"
              BibliographicResource_columns
              ["id"; "title"; "type"; "publisher"; "unique_id"]
              insert_resource insert_resource_run insert_resource_checked
              (iterrows bibliographic_df) e2
              {| tcolumns := BibliographicResource_columns; trows := [] |}
              Hopen) as Hchk3.
  destruct (for_each (iterrows bibliographic_df) insert_resource e2)
    as [[x|[]] e3]; cbn [fst snd] in *; [done|].
  intros _. split; [by apply Hchk|].
  apply Hchk3; [|done..].
  rewrite Hview. by rewrite lookup_insert_ne.
Qed.

Lemma violation_publisher (rows : list (list sqlval)) (a b c : sqlval) :
  violation "Publisher" {| tcolumns := Publisher_columns; trows := rows |}
    Publisher_columns [a; b; c] = None →
  (a ≠ NULL → a ∉ (λ r, default NULL (r !! 0%nat)) <$> rows)
  ∧ b ≠ NULL ∧ c ≠ NULL.
Proof.
  cbn [violation Publisher_columns not_null primary_key col_name andb].
  repeat case_bool_decide; intros Hv; try done; split_and!; try done; tauto.
Qed.

Lemma violation_resource (rows : list (list sqlval)) (a b c d f : sqlval) :
  violation "BibliographicResource"
    {| tcolumns := BibliographicResource_columns; trows := rows |}
    BibliographicResource_columns [a; b; c; d; f] = None →
  (a ≠ NULL → a ∉ (λ r, default NULL (r !! 0%nat)) <$> rows)
  ∧ b ≠ NULL ∧ f ≠ NULL.
Proof.
  cbn [violation BibliographicResource_columns not_null primary_key col_name
       andb].
  repeat case_bool_decide; intros Hv; try done; split_and!; try done; tauto.
Qed.

(** X9. The cell that fills [library.db] starts afresh: what the file held
    and the state of the connection before the cell have no effect on its
    outcome.  Without the removal of the file a second run would stop at the
    first [CREATE TABLE]: on the file a complete run leaves, the statement
    raises [OperationalError]. *)
Theorem create_database_fresh_start (publishers_df bibliographic_df : DataFrame)
    (e e' : env) :
  create_database publishers_df bibliographic_df e
  = create_database publishers_df bibliographic_df e'
  ∧ ((create_database publishers_df bibliographic_df e).1 = inr () →
     ((connect ;;; execute_create_table "Publisher" Publisher_columns)
        (create_database publishers_df bibliographic_df e).2).1
     = inl (OperationalError "table Publisher already exists")).
Proof.
  split; [reflexivity|]. intros Hrun.
  destruct (create_database_run publishers_df bibliographic_df e)
    as [(_ & -> & _ & _)|(x & Hx & _)]; [|congruence].
  unfold bind, connect, modify. cbn [db_file con].
  unfold execute_create_table, bind, get, raise.
  cbn [db_file con is_open view negb fst snd].
  rewrite decide_True; [done|].
  unfold filled_tables. rewrite lookup_insert_ne by done.
  rewrite lookup_insert_eq. by eexists.
Qed.

Lemma create_database_fresh_start_witness :
  ((connect ;;; execute_create_table "Publisher" Publisher_columns)
     (create_database
        (Samples.with_unique_id "publisher-" Samples.two_publishers)
        (Samples.with_unique_id "biblio-" Samples.three_resources)
        Samples.before).2).1
  = inl (OperationalError "table Publisher already exists").
Proof.
  apply (create_database_fresh_start
           (Samples.with_unique_id "publisher-" Samples.two_publishers)
           (Samples.with_unique_id "biblio-" Samples.three_resources)
           Samples.before Samples.before).
  vm_compute; reflexivity.
Defined.

Lemma keys_NoDup {A} (key : A → sqlval) (rows : list A) :
  (∀ i r, rows !! i = Some r → key r ≠ NULL → key r ∉ key <$> take i rows) →
  NoDup (filter (λ v, v ≠ NULL) (key <$> rows)).
Proof.
  induction rows as [|x l IH] using rev_ind; intros Hrows.
  - constructor.
  - rewrite fmap_app, filter_app. apply NoDup_app. split_and!.
    + apply IH. intros i r Hi Hr.
      rewrite <- (take_app_le l [x]) by (apply lookup_lt_Some in Hi; lia).
      apply Hrows; [|done]. by apply lookup_app_l_Some.
    + intros v Hv Hx. csimpl in Hx.
      rewrite filter_cons, filter_nil in Hx.
      case_decide as Hnull; [|by apply elem_of_nil in Hx].
      apply list_elem_of_singleton in Hx as ->.
      apply list_elem_of_filter in Hv as [_ Hv].
      specialize (Hrows (length l) x).
      rewrite take_app_length in Hrows.
      apply Hrows; [|done..].
      by rewrite lookup_app_r, Nat.sub_diag by lia.
    + csimpl. rewrite filter_cons, filter_nil.
      case_decide; [apply NoDup_singleton|constructor].
Qed.

Lemma filled_tables_constraints (publishers_df bibliographic_df : DataFrame)
    (e : env) :
  (create_database publishers_df bibliographic_df e).1 = inr () →
  let P := {| tcolumns := Publisher_columns;
              trows := stored ["id"; "name"; "unique_id"]
                       <$> (iterrows publishers_df).*2 |} in
  let B := {| tcolumns := BibliographicResource_columns;
              trows := stored ["id"; "title"; "type"; "publisher"; "unique_id"]
                       <$> (iterrows bibliographic_df).*2 |} in
  (create_database publishers_df bibliographic_df e).2
  = {| db_file := <["BibliographicResource" := B]> (<["Publisher" := P]> ∅);
       con := {| is_open := false; in_transaction := false;
                 view := <["BibliographicResource" := B]>
                           (<["Publisher" := P]> ∅) |} |}
  ∧ NoDup (filter (λ v, v ≠ NULL) (field P "id" <$> trows P))
  ∧ (NULL ∉ field P "name" <$> trows P)
  ∧ (NULL ∉ field P "unique_id" <$> trows P)
  ∧ NoDup (filter (λ v, v ≠ NULL) (field B "id" <$> trows B))
  ∧ (NULL ∉ field B "title" <$> trows B)
  ∧ (NULL ∉ field B "unique_id" <$> trows B).
Proof.
  intros Hrun P B.
  destruct (create_database_checked _ _ _ Hrun) as [HP HB].
  destruct (create_database_run publishers_df bibliographic_df e)
    as [(_ & -> & _ & _)|(x & Hx & _)]; [|congruence].
  split; [reflexivity|]. unfold P, B. cbn [tcolumns trows].
  split_and!.
  - rewrite <- !list_fmap_compose. apply keys_NoDup.
    intros i ir Hi Hnull.
    specialize (HP i ir Hi). apply violation_publisher in HP as (Hkey & _).
    rewrite <- !list_fmap_compose in Hkey. by apply Hkey.
  - intros Hin. apply list_elem_of_fmap in Hin as (r & Hr & Hin).
    apply list_elem_of_fmap in Hin as (row & -> & Hin).
    apply list_elem_of_fmap in Hin as (ir & -> & Hin).
    apply list_elem_of_lookup in Hin as [i Hi].
    specialize (HP i ir Hi). apply violation_publisher in HP as (_ & Hname & _).
    by apply Hname.
  - intros Hin. apply list_elem_of_fmap in Hin as (r & Hr & Hin).
    apply list_elem_of_fmap in Hin as (row & -> & Hin).
    apply list_elem_of_fmap in Hin as (ir & -> & Hin).
    apply list_elem_of_lookup in Hin as [i Hi].
    specialize (HP i ir Hi). apply violation_publisher in HP as (_ & _ & Huid).
    by apply Huid.
  - rewrite <- !list_fmap_compose. apply keys_NoDup.
    intros i ir Hi Hnull.
    specialize (HB i ir Hi). apply violation_resource in HB as (Hkey & _).
    rewrite <- !list_fmap_compose in Hkey. by apply Hkey.
  - intros Hin. apply list_elem_of_fmap in Hin as (r & Hr & Hin).
    apply list_elem_of_fmap in Hin as (row & -> & Hin).
    apply list_elem_of_fmap in Hin as (ir & -> & Hin).
    apply list_elem_of_lookup in Hin as [i Hi].
    specialize (HB i ir Hi). apply violation_resource in HB as (_ & Ht & _).
    by apply Ht.
  - intros Hin. apply list_elem_of_fmap in Hin as (r & Hr & Hin).
    apply list_elem_of_fmap in Hin as (row & -> & Hin).
    apply list_elem_of_fmap in Hin as (ir & -> & Hin).
    apply list_elem_of_lookup in Hin as [i Hi].
    specialize (HB i ir Hi). apply violation_resource in HB as (_ & _ & Huid).
    by apply Huid.
Qed.

(** X10. When the cell that fills [library.db] ran to its end, the file holds
    what the schema promises: in each table no two rows share an [id] that
    is not NULL, and the columns declared [NOT NULL] hold no NULL. *)
Theorem create_database_constraints (publishers_df bibliographic_df : DataFrame)
    (e : env) :
  (create_database publishers_df bibliographic_df e).1 = inr () →
  ∃ P B,
    db_file (create_database publishers_df bibliographic_df e).2
    = <["BibliographicResource" := B]> (<["Publisher" := P]> ∅)
    ∧ tcolumns P = Publisher_columns
    ∧ tcolumns B = BibliographicResource_columns
    ∧ length (trows P) = len publishers_df
    ∧ length (trows B) = len bibliographic_df
    ∧ NoDup (filter (λ v, v ≠ NULL) (field P "id" <$> trows P))
    ∧ (NULL ∉ field P "name" <$> trows P)
    ∧ (NULL ∉ field P "unique_id" <$> trows P)
    ∧ NoDup (filter (λ v, v ≠ NULL) (field B "id" <$> trows B))
    ∧ (NULL ∉ field B "title" <$> trows B)
    ∧ (NULL ∉ field B "unique_id" <$> trows B).
Proof.
  intros Hrun.
  destruct (filled_tables_constraints _ _ _ Hrun)
    as (-> & HP1 & HP2 & HP3 & HB1 & HB2 & HB3).
  eexists _, _. split; [reflexivity|]. cbn [tcolumns trows].
  unfold len. rewrite !length_fmap.
  split_and!; done.
Qed.

Lemma create_database_constraints_witness :
  ∃ P B,
    db_file (create_database
               (Samples.with_unique_id "publisher-" Samples.two_publishers)
               (Samples.with_unique_id "biblio-" Samples.three_resources)
               Samples.before).2
    = <["BibliographicResource" := B]> (<["Publisher" := P]> ∅)
    ∧ NoDup (filter (λ v, v ≠ NULL) (field P "id" <$> trows P))
    ∧ NoDup (filter (λ v, v ≠ NULL) (field B "id" <$> trows B)).
Proof.
  destruct (create_database_constraints
              (Samples.with_unique_id "publisher-" Samples.two_publishers)
              (Samples.with_unique_id "biblio-" Samples.three_resources)
              Samples.before)
    as (P & B & Hfile & _ & _ & _ & _ & HP & _ & _ & HB & _);
    [vm_compute; reflexivity|].
  by exists P, B.
Defined.

Lemma at_most_one_match {A} (key : A → sqlval) (k : sqlval) (rows : list A) :
  NoDup (filter (λ v, v ≠ NULL) (key <$> rows)) →
  (length (filter (λ q, sql_eq k (key q) = true) rows) ≤ 1)%nat.
Proof.
  induction rows as [|q rows IH]; [by auto|].
  csimpl. rewrite !filter_cons. intros Hnd.
  destruct (decide (sql_eq k (key q) = true)) as [Hq|Hq].
  - unfold sql_eq in Hq. apply bool_decide_eq_true in Hq as [Hk ->].
    rewrite decide_True in Hnd by done.
    apply NoDup_cons in Hnd as [Hnew _].
    assert (filter (λ q', sql_eq (key q) (key q') = true) rows = []) as ->;
      [|done].
    destruct (filter _ rows) as [|q' l] eqn:Hf; [done|]. exfalso.
    assert (q' ∈ filter (λ q', sql_eq (key q) (key q') = true) rows) as Hin
      by (rewrite Hf; left).
    apply list_elem_of_filter in Hin as [Heq Hq'].
    unfold sql_eq in Heq. apply bool_decide_eq_true in Heq as [_ Heq].
    apply Hnew. apply list_elem_of_filter. split; [done|].
    rewrite Heq. by apply list_elem_of_fmap_2.
  - apply IH. case_decide; [by apply NoDup_cons in Hnd as [_ ?]|done].
Qed.

Lemma left_join_rows (b p : table) :
  NoDup (filter (λ v, v ≠ NULL) (field p "id" <$> trows p)) →
  left_join b p
  = (λ r, [field b "id" r; field b "title" r; field b "type" r;
           match filter (λ q, sql_eq (field b "publisher" r) (field p "id" q)
                              = true) (trows p) with
           | q :: _ => field p "name" q
           | [] => NULL
           end]) <$> trows b.
Proof.
  intros Hnd. unfold left_join.
  induction (trows b) as [|r rows IH]; [done|].
  rewrite bind_cons, fmap_cons, IH.
  pose proof (at_most_one_match (field p "id") (field b "publisher" r)
                (trows p) Hnd) as Hlen.
  destruct (filter _ (trows p)) as [|q [|q' l]]; [done|done|].
  simpl in Hlen. lia.
Qed.

Lemma select_joined_run (n : nat) (e : env) (b p : table) :
  is_open (con e) = true →
  view (con e) !! "BibliographicResource" = Some b →
  view (con e) !! "Publisher" = Some p →
  select_joined n e = (inr (take n (left_join b p)), e).
Proof.
  intros Hopen Hb Hp. unfold select_joined, bind, get, ret.
  by rewrite Hopen, Hb, Hp.
Qed.

(** X11. The joined read-back after the cell that fills [library.db] ran to
    its end.  The query returns one row per resource, in the order of the
    frame and five at most: the primary key of [Publisher] leaves a resource
    one publisher at most, whose name ends the row; NULL ends it when no
    publisher has the resource's publisher as its id. *)
Theorem joined_read_back (publishers_df bibliographic_df : DataFrame)
    (e : env) :
  (create_database publishers_df bibliographic_df e).1 = inr () →
  let P := {| tcolumns := Publisher_columns;
              trows := stored ["id"; "name"; "unique_id"]
                       <$> (iterrows publishers_df).*2 |} in
  let B := {| tcolumns := BibliographicResource_columns;
              trows := stored ["id"; "title"; "type"; "publisher"; "unique_id"]
                       <$> (iterrows bibliographic_df).*2 |} in
  let publisher_of := λ r,
    filter (λ q, sql_eq (field B "publisher" r) (field P "id" q) = true)
           (trows P) in
  (verification_cell (create_database publishers_df bibliographic_df e).2).1
  = inr (take 5 (trows P), take 5 (trows B),
         take 5 ((λ r, [field B "id" r; field B "title" r; field B "type" r;
                        match publisher_of r with
                        | q :: _ => field P "name" q
                        | [] => NULL
                        end]) <$> trows B))
  ∧ (∀ r, (length (publisher_of r) ≤ 1)%nat)
  ∧ length (take 5 (left_join B P)) = len bibliographic_df `min` 5.
Proof.
  intros Hrun P B publisher_of.
  destruct (filled_tables_constraints _ _ _ Hrun) as (-> & HP & _).
  fold P B in HP |- *.
  split_and!.
  - unfold verification_cell. unfold bind at 1. unfold connect at 1, modify.
    cbn [db_file con]. unfold bind at 1.
    erewrite select_all_limit_run; [|done|]; cycle 1.
    { cbn [con view]. rewrite lookup_insert_ne by done. apply lookup_insert_eq. }
    unfold bind at 1.
    erewrite select_all_limit_run; [|done|]; cycle 1.
    { cbn [con view]. apply lookup_insert_eq. }
    unfold bind at 1.
    erewrite select_joined_run; [|done| |]; cycle 1.
    { cbn [con view]. apply lookup_insert_eq. }
    { cbn [con view]. rewrite lookup_insert_ne by done. apply lookup_insert_eq. }
    rewrite (left_join_rows B P HP). reflexivity.
  - intros r. by apply at_most_one_match.
  - rewrite (left_join_rows B P HP), length_take, length_fmap.
    unfold B, len. cbn [trows]. rewrite !length_fmap. lia.
Qed.

Lemma joined_read_back_witness :
  ∃ publishers resources,
    (verification_cell
       (create_database
          (Samples.with_unique_id "publisher-" Samples.two_publishers)
          (Samples.with_unique_id "biblio-" Samples.three_resources)
          Samples.before).2).1
    = inr (publishers, resources,
           [[TEXT "doi:10.1/a"; TEXT "A dataset"; TEXT "dataset"; TEXT "Press A"];
            [TEXT "doi:10.1/b"; TEXT "A book"; NULL; NULL];
            [TEXT "doi:10.1/c"; TEXT "A report"; TEXT "report"; NULL]]).
Proof.
  destruct (joined_read_back
              (Samples.with_unique_id "publisher-" Samples.two_publishers)
              (Samples.with_unique_id "biblio-" Samples.three_resources)
              Samples.before) as (Hq & _); [vm_compute; reflexivity|].
  eexists _, _. rewrite Hq. vm_compute; reflexivity.
Defined.

End constraints.

(** ** More on the relational tables *)

Section tables_more.
Import Py Pandas Sqlite Relational.

Lemma join_row_inner_length (left_on right_on : string) (r : DataFrame)
    (lrow : Series) :
  length (join_row how_inner left_on right_on r lrow)
  = length (matching right_on (series_lookup left_on lrow) r).
Proof.
  unfold join_row.
  destruct (matching right_on (series_lookup left_on lrow) r) as [|m ms];
    [done|].
  by rewrite length_fmap.
Qed.

Lemma select_len (cols : list string) (df t : DataFrame) :
  select cols df = inr t → len t = len df.
Proof.
  unfold select. destruct (filter _ cols); [|done].
  intros [= <-]. unfold len; simpl. by rewrite length_fmap.
Qed.

Lemma rename_len (old new : string) (df : DataFrame) :
  len (rename old new df) = len df.
Proof. unfold len, rename; simpl. by rewrite length_fmap. Qed.

Lemma inner_merge_len (l r : DataFrame) (left_on right_on : string)
    (df : DataFrame) :
  merge l r left_on right_on how_inner = inr df →
  len df = sum_list ((λ row, length (matching right_on
                                       (series_lookup left_on row) r))
                     <$> (iterrows l).*2).
Proof.
  intros Hm. rewrite (merge_len _ _ _ _ _ _ Hm).
  unfold merge_rows. rewrite bind_length. f_equal.
  apply list_fmap_ext. intros i row _. apply join_row_inner_length.
Qed.

Lemma unique_key_matches {A} `{EqDecision B} (f : A → B) (k : B) (l : list A) :
  NoDup (f <$> l) → (length (filter (λ x, f x = k) l) ≤ 1)%nat.
Proof.
  induction l as [|x l IH]; [by auto|].
  csimpl. intros [Hnew Hnd]%NoDup_cons. rewrite filter_cons.
  case_decide as Hx; [|by apply IH].
  destruct (filter (λ x, f x = k) l) as [|y l'] eqn:Hf; [done|]. exfalso.
  assert (y ∈ filter (λ x, f x = k) l) as Hin by (rewrite Hf; left).
  apply list_elem_of_filter in Hin as [Hy Hin].
  apply Hnew. rewrite Hx, <- Hy. by apply list_elem_of_fmap_2.
Qed.

(** X12. The tables of notebook 04 are built with an inner join on the venue
    id.  A table has one row per pair of a row of its type and a row of
    [venues_ids] with the same id: a publication whose venue id is unknown
    is left out, without an error, and a row comes out once per venue row
    that shares its id.  When the ids of [venues_ids] are pairwise distinct a
    table has at most the rows of its type. *)
Theorem inner_join_table_size (type : string) (cols : list string)
    (frame ids t : DataFrame) :
  (publication_table type cols frame ids = inr t →
   len t = sum_list ((λ row, length (matching "id"
                                       (series_lookup "publication venue" row)
                                       ids))
                     <$> (iterrows (query_eq "type" type frame)).*2)
   ∧ (NoDup (column_values "id" ids) →
      (len t ≤ len (query_eq "type" type frame))%nat))
  ∧ (venue_table type frame ids = inr t →
     len t = sum_list ((λ row, length (matching "id" (series_lookup "id" row)
                                         ids))
                       <$> (iterrows (query_eq "type" type frame)).*2)
     ∧ (NoDup (column_values "id" ids) →
        (len t ≤ len (query_eq "type" type frame))%nat)).
Proof.
  assert (∀ key rows,
    NoDup (column_values "id" ids) →
    (sum_list ((λ row, length (matching "id" (series_lookup key row) ids))
               <$> rows) ≤ length rows)%nat) as Hle.
  { intros key rows Hnd. induction rows as [|row rows IH]; [done|].
    csimpl.
    pose proof (unique_key_matches (series_lookup "id")
                  (series_lookup key row) (iterrows ids).*2) as Hone.
    unfold matching. unfold column_values in Hnd.
    rewrite <- list_fmap_compose in Hone.
    specialize (Hone Hnd). unfold matching in IH. lia. }
  split.
  - unfold publication_table, and_then.
    destruct (merge _ ids _ _ _) as [x|joined] eqn:Hm; [done|].
    destruct (select cols joined) as [x|t'] eqn:Hs; [done|].
    intros [= <-]. rewrite !rename_len, (select_len _ _ _ Hs).
    rewrite (inner_merge_len _ _ _ _ _ Hm). split; [done|].
    intros Hnd. unfold len at 1. rewrite <- (length_fmap snd). by apply Hle.
  - unfold venue_table, and_then.
    destruct (merge _ ids _ _ _) as [x|joined] eqn:Hm; [done|].
    destruct (select _ joined) as [x|t'] eqn:Hs; [done|].
    intros [= <-]. rewrite !rename_len, (select_len _ _ _ Hs).
    rewrite (inner_merge_len _ _ _ _ _ Hm). split; [done|].
    intros Hnd. unfold len at 1. rewrite <- (length_fmap snd). by apply Hle.
Qed.

Lemma inner_join_table_size_witness :
  ∃ t,
    journal_articles (Tables.numbered Samples.article_without_issue)
                     (Tables.ids Samples.one_book) = inr t
    ∧ len (Tables.numbered Samples.article_without_issue) = 1
    ∧ len t = 0.
Proof.
  eexists. split_and!.
  - vm_compute; reflexivity.
  - vm_compute; reflexivity.
  - destruct (inner_join_table_size "journal article"
      ["internalId"; "doi"; "publication year"; "title"; "issue"; "volume";
       "venueId"]
      (Tables.numbered Samples.article_without_issue)
      (Tables.ids Samples.one_book)
      {| columns := ["internalId"; "doi"; "publicationYear"; "title"; "issue";
                     "volume"; "publicationVenue"];
         iterrows := [] |}) as [Hp _].
    destruct Hp as [Hlen _]; [vm_compute; reflexivity|].
    apply Hlen.
Defined.

Lemma populate_run (ids journals books articles chapters : DataFrame) :
  ∃ F : gmap string table → gmap string table,
    (∀ m, F (F m) = F m)
    ∧ (∀ m name, name ∉ ["VenueId"; "Journal"; "Book"; "JournalArticle";
                         "BookChapter"] → F m !! name = m !! name)
    ∧ ∀ e, populate ids journals books articles chapters e
           = (inr (), {| db_file := F (db_file e);
                         con := {| is_open := true; in_transaction := false;
                                   view := F (db_file e) |} |}).
Proof.
  eexists (λ m, <["BookChapter" := _]> (<["JournalArticle" := _]>
             (<["Book" := _]> (<["Journal" := _]> (<["VenueId" := _]> m))))).
  split_and!.
  - intros m. apply map_eq. intros k.
    rewrite !lookup_insert. by repeat case_decide.
  - intros m name Hname. rewrite !lookup_insert.
    repeat case_decide; try done; subst; exfalso; apply Hname; set_solver.
  - intros e'. reflexivity.
Qed.

(** X13. The last cell of notebook 04 raises nothing, whatever the file held
    and whatever the state of the connection: the five tables replace those
    of the same name, every other table of the file is kept, nothing is left
    uncommitted and the connection stays open.  Running the cell again
    changes nothing. *)
Theorem populate_again (ids journals books articles chapters : DataFrame)
    (e : env) :
  let e' := (populate ids journals books articles chapters e).2 in
  (populate ids journals books articles chapters e).1 = inr ()
  ∧ is_open (con e') = true
  ∧ in_transaction (con e') = false
  ∧ view (con e') = db_file e'
  ∧ (∀ name, name ∉ ["VenueId"; "Journal"; "Book"; "JournalArticle";
                      "BookChapter"] → db_file e' !! name = db_file e !! name)
  ∧ populate ids journals books articles chapters e' = (inr (), e').
Proof.
  destruct (populate_run ids journals books articles chapters)
    as (F & Hidem & Hother & Hrun).
  cbv zeta. rewrite !Hrun. cbn [fst snd db_file con is_open in_transaction view].
  split_and!; [done..| |].
  - intros name Hname. by apply Hother.
  - by rewrite Hidem.
Qed.

End tables_more.

(** ** The rows of the relational tables *)

Section table_rows.
Import Py Pandas Sqlite Relational.

Lemma series_lookup_app (k : string) (a b : Series) :
  series_lookup k (a ++ b)
  = match series_lookup k a with
    | Some v => Some v
    | None => series_lookup k b
    end.
Proof. induction a as [|[l v] a IH]; simpl; [done|]. by case_decide. Qed.

Lemma series_lookup_None (k : string) (row : Series) :
  k ∉ row.*1 → series_lookup k row = None.
Proof.
  induction row as [|[l v] row IH]; csimpl; [done|].
  intros [Hl Hrow]%not_elem_of_cons. rewrite decide_False by done. by apply IH.
Qed.

Lemma series_lookup_relabel (f : string → string) (k : string) (row : Series) :
  (∀ c, c ∈ row.*1 → f c = c ∨ (f c ≠ k ∧ c ≠ k)) →
  series_lookup k (prod_map f id <$> row) = series_lookup k row.
Proof.
  induction row as [|[c v] row IH]; intros Hf; [done|].
  csimpl. destruct (Hf c) as [->|[Hfc Hc]]; [left|..].
  - rewrite IH; [done|]. intros c' Hc'. apply Hf. by right.
  - rewrite !decide_False by done. apply IH. intros c' Hc'. apply Hf. by right.
Qed.

Lemma merge_rows_inner_elem (left_on right_on : string) (l r : DataFrame)
    (p : Series * option Series) :
  p ∈ merge_rows how_inner left_on right_on l r →
  p.1 ∈ (iterrows l).*2
  ∧ ∃ rrow, p.2 = Some rrow ∧ rrow ∈ (iterrows r).*2
      ∧ series_lookup right_on rrow = series_lookup left_on p.1.
Proof.
  unfold merge_rows. intros (lrow & Hp & Hl)%list_elem_of_bind.
  unfold join_row in Hp.
  destruct (matching right_on (series_lookup left_on lrow) r) as [|m ms] eqn:Hm;
    [by apply elem_of_nil in Hp|].
  apply list_elem_of_fmap in Hp as (rrow & -> & Hr).
  rewrite <- Hm in Hr. unfold matching in Hr.
  apply list_elem_of_filter in Hr as [Hkey Hr].
  split; [done|]. by exists rrow.
Qed.

Lemma joined_lookup (left_on : string) (l ids : DataFrame)
    (p : Series * option Series) (k : string) :
  columns ids = ["venueId"; "id"] →
  "venueId" ∉ columns l →
  p.1.*1 = columns l →
  k ≠ "id" → k ≠ "id_x" → k ≠ "id_y" →
  series_lookup k (joined_series left_on "id" l ids p)
  = if decide (k = "venueId")
    then Some (default NaN (p.2 ≫= series_lookup "venueId"))
    else series_lookup k p.1.
Proof.
  intros Hcols Hnew Hlabels Hk Hkx Hky.
  unfold joined_series. rewrite series_lookup_app.
  rewrite series_lookup_relabel; cycle 1.
  { intros c Hc. unfold suffixed.
    destruct (overlapping left_on "id" l ids c) eqn:Hov; [right|by left].
    unfold overlapping in Hov. rewrite Hcols in Hov.
    apply andb_prop in Hov as [Hov _]. apply andb_prop in Hov as [Hl Hr].
    apply bool_decide_eq_true in Hl, Hr.
    apply elem_of_cons in Hr as [->|Hr]; [done|].
    apply list_elem_of_singleton in Hr as ->. done. }
  assert (suffixed left_on "id" l ids "_y" "venueId" = "venueId") as Hv.
  { unfold suffixed, overlapping.
    by rewrite (bool_decide_eq_false_2 _ Hnew). }
  assert (∃ rest,
    right_columns left_on "id" ids = "venueId" :: rest
    ∧ ∀ c, c ∈ rest → c = "id") as (rest & -> & Hrest).
  { unfold right_columns, shared_key. rewrite Hcols.
    rewrite filter_cons, decide_True; cycle 1.
    { apply andb_false_intro2. by apply bool_decide_eq_false_2. }
    eexists. split; [reflexivity|].
    intros c Hc. apply list_elem_of_filter in Hc as [_ Hc].
    by apply list_elem_of_singleton in Hc. }
  rewrite fmap_cons, Hv.
  destruct (decide (k = "venueId")) as [->|Hkv].
  - rewrite series_lookup_None by (by rewrite Hlabels).
    cbn [series_lookup]. by rewrite decide_True.
  - destruct (series_lookup k p.1) as [v|]; [done|].
    cbn [series_lookup]. rewrite decide_False by done.
    apply series_lookup_None. rewrite <- list_fmap_compose.
    intros (c & Hc & Hin)%list_elem_of_fmap. cbn in Hc.
    apply Hrest in Hin as ->. unfold suffixed in Hc.
    destruct (overlapping _ _ _ _ _); done.
Qed.

Lemma inner_pairs_labels (type left_on : string) (frame ids : DataFrame)
    (i : nat) (p : Series * option Series) :
  Forall (λ ir, ir.2.*1 = columns frame) (iterrows frame) →
  merge_rows how_inner left_on "id" (query_eq "type" type frame) ids !! i
  = Some p →
  p.1.*1 = columns (query_eq "type" type frame).
Proof.
  intros Hwf Hp. apply list_elem_of_lookup_2, merge_rows_inner_elem in Hp as [Hp _].
  apply list_elem_of_fmap in Hp as (ir & -> & Hir).
  apply list_elem_of_filter in Hir as [_ Hir].
  by apply (proj1 (Forall_forall _ _) Hwf).
Qed.

Lemma journal_articles_pairs (publications ids t : DataFrame) :
  columns ids = ["venueId"; "id"] →
  "venueId" ∉ columns publications →
  Forall (λ ir, ir.2.*1 = columns publications) (iterrows publications) →
  journal_articles publications ids = inr t →
  columns t = ["internalId"; "doi"; "publicationYear"; "title"; "issue";
               "volume"; "publicationVenue"]
  ∧ iterrows t
    = imap (λ i p, (i, [("internalId", default NaN (series_lookup "internalId" p.1));
                        ("doi", default NaN (series_lookup "doi" p.1));
                        ("publicationYear",
                         default NaN (series_lookup "publication year" p.1));
                        ("title", default NaN (series_lookup "title" p.1));
                        ("issue", default NaN (series_lookup "issue" p.1));
                        ("volume", default NaN (series_lookup "volume" p.1));
                        ("publicationVenue",
                         default NaN (p.2 ≫= series_lookup "venueId"))]))
           (merge_rows how_inner "publication venue" "id"
              (query_eq "type" "journal article" publications) ids).
Proof.
  intros Hcols Hnew Hwf.
  unfold journal_articles, publication_table, and_then.
  destruct (merge _ ids _ _ _) as [x|joined] eqn:Hm; [done|].
  unfold merge in Hm. repeat case_decide; simplify_eq.
  unfold select. destruct (filter _ _) as [|c cs]; [|done].
  intros [= <-]. split; [reflexivity|].
  cbn [rename iterrows]. rewrite !fmap_imap.
  apply imap_ext. intros i p Hp.
  pose proof (inner_pairs_labels _ _ _ _ _ _ Hwf Hp) as Hlabels.
  cbv [compose]. cbn -[joined_series series_lookup].
  rewrite !(joined_lookup _ _ ids p) by done.
  reflexivity.
Qed.

Lemma book_chapters_pairs (publications ids t : DataFrame) :
  columns ids = ["venueId"; "id"] →
  "venueId" ∉ columns publications →
  Forall (λ ir, ir.2.*1 = columns publications) (iterrows publications) →
  book_chapters publications ids = inr t →
  columns t = ["internalId"; "doi"; "publicationYear"; "title";
               "publicationVenue"]
  ∧ iterrows t
    = imap (λ i p, (i, [("internalId", default NaN (series_lookup "internalId" p.1));
                        ("doi", default NaN (series_lookup "doi" p.1));
                        ("publicationYear",
                         default NaN (series_lookup "publication year" p.1));
                        ("title", default NaN (series_lookup "title" p.1));
                        ("publicationVenue",
                         default NaN (p.2 ≫= series_lookup "venueId"))]))
           (merge_rows how_inner "publication venue" "id"
              (query_eq "type" "book chapter" publications) ids).
Proof.
  intros Hcols Hnew Hwf.
  unfold book_chapters, publication_table, and_then.
  destruct (merge _ ids _ _ _) as [x|joined] eqn:Hm; [done|].
  unfold merge in Hm. repeat case_decide; simplify_eq.
  unfold select. destruct (filter _ _) as [|c cs]; [|done].
  intros [= <-]. split; [reflexivity|].
  cbn [rename iterrows]. rewrite !fmap_imap.
  apply imap_ext. intros i p Hp.
  pose proof (inner_pairs_labels _ _ _ _ _ _ Hwf Hp) as Hlabels.
  cbv [compose]. cbn -[joined_series series_lookup].
  rewrite !(joined_lookup _ _ ids p) by done.
  reflexivity.
Qed.

(** X14. The rows of the tables [JournalArticle] and [BookChapter].  On a
    frame of publications whose rows carry the labels of its columns and
    that has no column [venueId], each table has one row per pair of a
    publication of its type and a row of [venues_ids] with the
    publication's venue as its id: the row holds the cells of the
    publication under the selected columns and, as [publicationVenue], the
    [venueId] of the venue row. *)
Theorem publication_tables_rows (publications ids t : DataFrame) :
  columns ids = ["venueId"; "id"] →
  "venueId" ∉ columns publications →
  Forall (λ ir, ir.2.*1 = columns publications) (iterrows publications) →
  let cell := λ (c : string) (row : Series),
    default NaN (series_lookup c row) in
  let pairs := λ type,
    merge_rows how_inner "publication venue" "id"
               (query_eq "type" type publications) ids in
  (∀ type p, p ∈ pairs type →
     p.1 ∈ (iterrows publications).*2
     ∧ series_lookup "type" p.1 = Some (Str type)
     ∧ ∃ venue, p.2 = Some venue ∧ venue ∈ (iterrows ids).*2
         ∧ series_lookup "id" venue = series_lookup "publication venue" p.1)
  ∧ (journal_articles publications ids = inr t →
     columns t = ["internalId"; "doi"; "publicationYear"; "title"; "issue";
                  "volume"; "publicationVenue"]
     ∧ iterrows t
       = imap (λ i p, (i, [("internalId", cell "internalId" p.1);
                           ("doi", cell "doi" p.1);
                           ("publicationYear", cell "publication year" p.1);
                           ("title", cell "title" p.1);
                           ("issue", cell "issue" p.1);
                           ("volume", cell "volume" p.1);
                           ("publicationVenue",
                            default NaN (p.2 ≫= series_lookup "venueId"))]))
              (pairs "journal article"))
  ∧ (book_chapters publications ids = inr t →
     columns t = ["internalId"; "doi"; "publicationYear"; "title";
                  "publicationVenue"]
     ∧ iterrows t
       = imap (λ i p, (i, [("internalId", cell "internalId" p.1);
                           ("doi", cell "doi" p.1);
                           ("publicationYear", cell "publication year" p.1);
                           ("title", cell "title" p.1);
                           ("publicationVenue",
                            default NaN (p.2 ≫= series_lookup "venueId"))]))
              (pairs "book chapter")).
Proof.
  intros Hcols Hnew Hwf cell pairs. split_and!.
  - intros type p Hp. apply merge_rows_inner_elem in Hp as [Hl Hr].
    apply list_elem_of_fmap in Hl as (ir & Hir & Hl).
    apply list_elem_of_filter in Hl as [Hty Hl].
    split_and!; [|by rewrite Hir|done].
    rewrite Hir. by apply list_elem_of_fmap_2.
  - by apply journal_articles_pairs.
  - by apply book_chapters_pairs.
Qed.

Lemma publication_tables_rows_witness :
  ∃ t,
    book_chapters (Tables.numbered Samples.publications)
                  (Tables.ids Samples.venues) = inr t
    ∧ columns t = ["internalId"; "doi"; "publicationYear"; "title";
                   "publicationVenue"].
Proof.
  eexists. split.
  - vm_compute; reflexivity.
  - refine (proj1 (proj2 (proj2 (publication_tables_rows
              (Tables.numbered Samples.publications)
              (Tables.ids Samples.venues) _ _ _ _)) _)).
    + vm_compute; reflexivity.
    + compute_done.
    + compute_done.
    + vm_compute; reflexivity.
Defined.

Lemma venue_table_pairs (type : string) (venues ids t : DataFrame) :
  columns ids = ["venueId"; "id"] →
  "venueId" ∉ columns venues →
  Forall (λ ir, ir.2.*1 = columns venues) (iterrows venues) →
  venue_table type venues ids = inr t →
  columns t = ["internalId"; "name"]
  ∧ iterrows t
    = imap (λ i p, (i, [("internalId",
                         default NaN (p.2 ≫= series_lookup "venueId"));
                        ("name", default NaN (series_lookup "name" p.1))]))
           (merge_rows how_inner "id" "id" (query_eq "type" type venues) ids).
Proof.
  intros Hcols Hnew Hwf. unfold venue_table, and_then.
  destruct (merge _ ids _ _ _) as [x|joined] eqn:Hm; [done|].
  unfold merge in Hm. repeat case_decide; simplify_eq.
  unfold select. destruct (filter _ _) as [|c cs]; [|done].
  intros [= <-]. split; [done|].
  cbn [rename iterrows]. rewrite !fmap_imap.
  apply imap_ext. intros i p Hp.
  pose proof (inner_pairs_labels _ _ _ _ _ _ Hwf Hp) as Hlabels.
  cbv [compose]. cbn -[joined_series series_lookup].
  rewrite !(joined_lookup _ _ ids p) by done.
  reflexivity.
Qed.

(** X15. The rows of the tables [Journal] and [Book].  On a frame of venues
    whose rows carry the labels of its columns and that has no column
    [venueId], the table has one row per pair of a venue of its type and a
    row of [venues_ids] with the same id: the [venueId] of that row, as
    [internalId], and the name of the venue. *)
Theorem venue_table_rows (type : string) (venues ids t : DataFrame) :
  columns ids = ["venueId"; "id"] →
  "venueId" ∉ columns venues →
  Forall (λ ir, ir.2.*1 = columns venues) (iterrows venues) →
  venue_table type venues ids = inr t →
  let pairs :=
    merge_rows how_inner "id" "id" (query_eq "type" type venues) ids in
  columns t = ["internalId"; "name"]
  ∧ iterrows t
    = imap (λ i p, (i, [("internalId",
                         default NaN (p.2 ≫= series_lookup "venueId"));
                        ("name", default NaN (series_lookup "name" p.1))]))
           pairs
  ∧ ∀ p, p ∈ pairs →
      p.1 ∈ (iterrows venues).*2
      ∧ series_lookup "type" p.1 = Some (Str type)
      ∧ ∃ venue, p.2 = Some venue ∧ venue ∈ (iterrows ids).*2
          ∧ series_lookup "id" venue = series_lookup "id" p.1.
Proof.
  intros Hcols Hnew Hwf Hrun pairs.
  destruct (venue_table_pairs _ _ _ _ Hcols Hnew Hwf Hrun) as [Hc Hrows].
  split_and!; [done..|].
  intros p Hp. apply merge_rows_inner_elem in Hp as [Hl Hr].
  apply list_elem_of_fmap in Hl as (ir & Hir & Hl).
  apply list_elem_of_filter in Hl as [Hty Hl].
  split_and!; [|by rewrite Hir|done].
  rewrite Hir. by apply list_elem_of_fmap_2.
Qed.

Lemma venue_table_rows_witness :
  ∃ t,
    venue_table "journal" Samples.venues (Tables.ids Samples.venues) = inr t
    ∧ columns t = ["internalId"; "name"].
Proof.
  eexists. split.
  - vm_compute; reflexivity.
  - refine (proj1 (venue_table_rows "journal" Samples.venues
                     (Tables.ids Samples.venues) _ _ _ _ _)).
    + vm_compute; reflexivity.
    + compute_done.
    + compute_done.
    + vm_compute; reflexivity.
Defined.










End table_rows.

(** ** The publication tables, from the two frames *)

Section tables_of_frames.
Import Py Pandas Sqlite Relational.







End tables_of_frames.
